(** * OPMIP (Open Proxy Mobile IP): senders and the IPv6 tunnel parameters

    A shallow embedding of

    - [lib/opmip/pmip/mp_sender.cpp]    ([pbu_sender], [pba_sender]),
    - [lib/opmip/pmip/icmp_sender.cpp]  ([icmp_ra_sender]),
    - [inc/opmip/sys/ip6_tunnel_service.hpp]
      ([parameters], [implementation_type], [delete_on_close]),

    together with the properties of the specification that concern them.

    The senders build a packet by constructing objects in place inside a
    zero-filled byte array ([new(_buffer + len) T]).  The array is a
    [list Z] of bytes, a pointer into it is an offset, and every access
    is bounds-checked: a store or a load outside the array is undefined
    behaviour in C++ and [None] here.

    The declarations of the packet structures ([ip::mproto::pbu],
    [ip::mproto::pba], [ip::mproto::option], [ip::icmp::router_advertisement],
    the neighbour discovery options) are not among the sources.  Their
    sizes, field offsets and flag masks are parameters (the records
    [mh_layout] and [icmp_layout]); every result holds for all layouts
    whose fields lie inside their structure and do not overlap. *)

From stdpp Require Import base numbers list option strings vector.

(** ** Bytes and the packet buffer *)

Definition uint8  (v : Z) : Z := (v mod 256)%Z.
Definition uint16 (v : Z) : Z := (v mod 65536)%Z.
Definition uint32 (v : Z) : Z := (v mod 4294967296)%Z.

(** [std::fill(_buffer, _buffer + sizeof(_buffer), 0)], whatever the array
    [_buffer] of the new object holds. *)
Definition zero_fill (_buffer : list Z) : list Z :=
  replicate (length _buffer) 0%Z.

(** A store of the bytes [bs] at offset [p]; outside the array it is
    undefined. *)
Definition store (p : nat) (bs : list Z) (buf : list Z) : option (list Z) :=
  if decide (p + length bs ≤ length buf)
  then Some (list_inserts p bs buf)
  else None.

Definition load (p : nat) (buf : list Z) : option Z := buf !! p.

(** Network byte order ([htons], [htonl]) of a 16 and of a 32 bit value. *)
Definition htons (v : Z) : list Z :=
  [uint8 (uint16 v / 256); uint8 (uint16 v)].

Definition htonl (v : Z) : list Z :=
  [uint8 (uint32 v / 16777216); uint8 (uint32 v / 65536);
   uint8 (uint32 v / 256); uint8 (uint32 v)].

Definition store16 (p : nat) (v : Z) (buf : list Z) : option (list Z) :=
  store p (htons v) buf.

Definition store32 (p : nat) (v : Z) (buf : list Z) : option (list Z) :=
  store p (htonl v) buf.

(** [ntohs] / [ntohl] of the field at [p]. *)
Definition load16 (p : nat) (buf : list Z) : option Z :=
  hi ← load p buf; lo ← load (p + 1) buf; Some (hi * 256 + lo)%Z.

Definition load32 (p : nat) (buf : list Z) : option Z :=
  b3 ← load p buf; b2 ← load (p + 1) buf;
  b1 ← load (p + 2) buf; b0 ← load (p + 3) buf;
  Some (((b3 * 256 + b2) * 256 + b1) * 256 + b0)%Z.

(** The [n] bytes from [p] on. *)
Definition loads (p n : nat) (buf : list Z) : option (list Z) :=
  if decide (p + n ≤ length buf) then Some (take n (drop p buf)) else None.

(** A one-bit field kept in the byte at [p]:
    [if (v) b |= mask; else b &= ~mask]. *)
Definition store_flag (p : nat) (mask : Z) (v : bool) (buf : list Z)
  : option (list Z) :=
  b ← load p buf;
  store p [if v then Z.lor b mask else Z.land b (Z.lnot mask)] buf.

Definition load_flag (p : nat) (mask : Z) (buf : list Z) : option bool :=
  b ← load p buf; Some (bool_decide (Z.land b mask = mask)).

(** Modelled from the spec: [align_to<N>] of opmip/base.hpp, which is not
    among the sources; the spec has the overall length "8-byte aligned",
    the length rounded up to the next multiple of [n]. *)
Definition align_to (n len : nat) : nat := (len + (n - 1)) / n * n.

Fixpoint bytes_of_string (s : string) : list Z :=
  match s with
  | EmptyString => []
  | String c s' => Z.of_N (Ascii.N_of_ascii c) :: bytes_of_string s'
  end.

(** Two buffers of one length that hold the same bytes below [n]. *)
Definition agree_below (n : nat) (buf buf' : list Z) : Prop :=
  length buf' = length buf ∧ ∀ j, j < n → buf' !! j = buf !! j.

(** ** The mobility protocol structures (ip::mproto)

    Sizes, offsets and masks of [ip::mproto::pbu], [ip::mproto::pba] and of
    the payloads of the handoff and access technology type options. *)

Record mh_layout := {
  pbu_sizeof : nat;
  pbu_sequence_off : nat;
  pbu_ack_off : nat;
  pbu_ack_mask : Z;
  pbu_proxy_reg_off : nat;
  pbu_proxy_reg_mask : Z;
  pbu_lifetime_off : nat;
  pba_sizeof : nat;
  pba_status_off : nat;
  pba_proxy_reg_off : nat;
  pba_proxy_reg_mask : Z;
  pba_sequence_off : nat;
  pba_lifetime_off : nat;
  handoff_static_size : nat;
  handoff_indicator_off : nat;
  att_static_size : nat;
  att_tech_type_off : nat
}.

(** Modelled from the spec: the size of the common mobility header
    ([ip::mproto::header], not among the sources), "Mobility Header framing
    per RFC 6275 §6.1": payload protocol, header length, MH type, reserved
    and a 16 bit checksum. *)
Definition mh_header_size : nat := 6.

(** Modelled from the spec: the MH type constants [pbu::mh_type] and
    [pba::mh_type], "MH types for PBU (5) and PBA (6)". *)
Definition pbu_mh_type : Z := 5.
Definition pba_mh_type : Z := 6.

(** Placement of the fields of a structure: [field_in p n lo hi] has the
    [n] bytes at [p] between [lo] and [hi]; [apart p n q m] has the [n]
    bytes at [p] and the [m] bytes at [q] share no byte. *)
Definition field_in (p n lo hi : nat) : Prop := lo ≤ p ∧ p + n ≤ hi.
Definition apart (p n q m : nat) : Prop := p + n ≤ q ∨ q + m ≤ p.
Definition flag_mask (m : Z) : Prop := (0 < m < 256)%Z.

(** The fields lie behind the common header and inside their structure;
    the 16 bit fields overlap neither each other nor a flag or status byte.
    Two flags may share a byte. *)
Definition pbu_layout_wf (L : mh_layout) : Prop :=
  field_in (pbu_sequence_off L) 2 mh_header_size (pbu_sizeof L) ∧
  field_in (pbu_lifetime_off L) 2 mh_header_size (pbu_sizeof L) ∧
  field_in (pbu_ack_off L) 1 mh_header_size (pbu_sizeof L) ∧
  field_in (pbu_proxy_reg_off L) 1 mh_header_size (pbu_sizeof L) ∧
  flag_mask (pbu_ack_mask L) ∧
  flag_mask (pbu_proxy_reg_mask L) ∧
  apart (pbu_sequence_off L) 2 (pbu_lifetime_off L) 2 ∧
  apart (pbu_ack_off L) 1 (pbu_sequence_off L) 2 ∧
  apart (pbu_ack_off L) 1 (pbu_lifetime_off L) 2 ∧
  apart (pbu_proxy_reg_off L) 1 (pbu_sequence_off L) 2 ∧
  apart (pbu_proxy_reg_off L) 1 (pbu_lifetime_off L) 2.

Definition pba_layout_wf (L : mh_layout) : Prop :=
  field_in (pba_sequence_off L) 2 mh_header_size (pba_sizeof L) ∧
  field_in (pba_lifetime_off L) 2 mh_header_size (pba_sizeof L) ∧
  field_in (pba_status_off L) 1 mh_header_size (pba_sizeof L) ∧
  field_in (pba_proxy_reg_off L) 1 mh_header_size (pba_sizeof L) ∧
  flag_mask (pba_proxy_reg_mask L) ∧
  apart (pba_sequence_off L) 2 (pba_lifetime_off L) 2 ∧
  apart (pba_proxy_reg_off L) 1 (pba_sequence_off L) 2 ∧
  apart (pba_proxy_reg_off L) 1 (pba_lifetime_off L) 2 ∧
  apart (pba_status_off L) 1 (pba_sequence_off L) 2 ∧
  apart (pba_status_off L) 1 (pba_lifetime_off L) 2 ∧
  apart (pba_status_off L) 1 (pba_proxy_reg_off L) 1.

Definition mh_options_wf (L : mh_layout) : Prop :=
  field_in (handoff_indicator_off L) 1 0 (handoff_static_size L) ∧
  handoff_static_size L < 256 ∧
  field_in (att_tech_type_off L) 1 0 (att_static_size L) ∧
  att_static_size L < 256.

Definition mh_layout_wf (L : mh_layout) : Prop :=
  pbu_layout_wf L ∧ pba_layout_wf L ∧ mh_options_wf L.

(** A mobility option type: its type code and the size of the fixed part
    of its payload ([T::type_value], [T::static_size]). *)
Record option_type := {
  type_value : Z;
  static_size : nat
}.

Module proxy_binding_info.
Record t := {
  address : vec Z 16;
  id : string;
  sequence : Z;
  lifetime : Z;
  status : Z;
  handoff : Z;
  link_type : Z
}.
End proxy_binding_info.

Section mproto.
Context (L : mh_layout).

(** Modelled from the spec: [header::init(type, len)], not among the
    sources: the send path "fills the MH header length field", with the
    framing of RFC 6275 §6.1 (no next header, the length in units of 8
    bytes not counting the first 8, the MH type, reserved and checksum
    zero). *)
Definition mh_init (this : nat) (type : Z) (len : nat) (buf : list Z)
  : option (list Z) :=
  store this [59; uint8 (Z.of_nat len / 8 - 1); type; 0; 0; 0]%Z buf.

(** Modelled from the spec: the members of [ip::mproto::pbu], which is not
    among the sources: "flags (A, H, L, K, M, R, P in canonical positions)",
    "a 16-bit sequence, 16-bit lifetime (×4 s)", in network byte order.
    [new(p) ip::mproto::pbu] starts the object with all fields zero, each
    setter stores its field at the offset of the layout. *)
Definition new_pbu (p : nat) (buf : list Z) : option (list Z) :=
  store p (replicate (pbu_sizeof L) 0%Z) buf.

Definition pbu_sequence (this : nat) (v : Z) :=
  store16 (this + pbu_sequence_off L) v.
Definition pbu_ack (this : nat) (v : bool) :=
  store_flag (this + pbu_ack_off L) (pbu_ack_mask L) v.
Definition pbu_proxy_reg (this : nat) (v : bool) :=
  store_flag (this + pbu_proxy_reg_off L) (pbu_proxy_reg_mask L) v.
Definition pbu_lifetime (this : nat) (v : Z) :=
  store16 (this + pbu_lifetime_off L) v.

(** Modelled from the spec: the readers of the same fields. *)
Definition pbu_get_sequence (this : nat) := load16 (this + pbu_sequence_off L).
Definition pbu_get_ack (this : nat) :=
  load_flag (this + pbu_ack_off L) (pbu_ack_mask L).
Definition pbu_get_proxy_reg (this : nat) :=
  load_flag (this + pbu_proxy_reg_off L) (pbu_proxy_reg_mask L).
Definition pbu_get_lifetime (this : nat) := load16 (this + pbu_lifetime_off L).

(** Modelled from the spec: the members of [ip::mproto::pba], which is not
    among the sources: the status ("status (on PBA only)"), the P flag, the
    16-bit sequence and the 16-bit lifetime. *)
Definition new_pba (p : nat) (buf : list Z) : option (list Z) :=
  store p (replicate (pba_sizeof L) 0%Z) buf.

Definition pba_status (this : nat) (v : Z) :=
  store (this + pba_status_off L) [uint8 v].
Definition pba_proxy_reg (this : nat) (v : bool) :=
  store_flag (this + pba_proxy_reg_off L) (pba_proxy_reg_mask L) v.
Definition pba_sequence (this : nat) (v : Z) :=
  store16 (this + pba_sequence_off L) v.
Definition pba_lifetime (this : nat) (v : Z) :=
  store16 (this + pba_lifetime_off L) v.

Definition pba_get_status (this : nat) := load (this + pba_status_off L).
Definition pba_get_proxy_reg (this : nat) :=
  load_flag (this + pba_proxy_reg_off L) (pba_proxy_reg_mask L).
Definition pba_get_sequence (this : nat) := load16 (this + pba_sequence_off L).
Definition pba_get_lifetime (this : nat) := load16 (this + pba_lifetime_off L).

(** Modelled from the spec: the option type codes, "Recognized option
    type codes: NAI=8, Handoff=15, Access Technology Type=17"; the NAI
    payload is "subtype 1 + identifier bytes", one fixed byte. *)
Definition option_nai : option_type := {| type_value := 8; static_size := 1 |}.
Definition option_handoff : option_type :=
  {| type_value := 15; static_size := handoff_static_size L |}.
Definition option_att : option_type :=
  {| type_value := 17; static_size := att_static_size L |}.

Definition nai_subtype_off : nat := 0.
Definition nai_id_off : nat := 1.

(** Modelled from the spec: [ip::mproto::option], "Options in TLV form":
    a type byte, a length byte counting the payload, the payload.
    [option(T, length)] writes the two header bytes, [get<T>()] is the
    payload, [size(opt)] the header plus the stored length. *)
Definition option_header_size : nat := 2.

Definition new_option (p : nat) (T : option_type) (length : nat)
    (buf : list Z) : option (list Z) :=
  store p [type_value T; uint8 (Z.of_nat (static_size T + length))] buf.

Definition option_get (opt : nat) : nat := opt + option_header_size.

Definition option_type_of (opt : nat) (buf : list Z) : option Z :=
  load opt buf.

Definition option_size (opt : nat) (buf : list Z) : option nat :=
  l ← load (opt + 1) buf; Some (option_header_size + Z.to_nat l).
End mproto.

(** ** lib/opmip/pmip/mp_sender.cpp *)

Record sender := {
  _endpoint : vec Z 16;
  _buffer : list Z;
  _length : nat
}.

(** The bytes that are sent: the first [_length] bytes of [_buffer]. *)
Definition message (s : sender) : list Z := take (_length s) (_buffer s).

(** The constructors take the layout and [storage], the bytes that the
    array [_buffer] of the object under construction holds before the
    constructor runs; its length is [sizeof(_buffer)]. *)
Section mp_sender.
Context (L : mh_layout) (storage : list Z).
Import proxy_binding_info.

Definition pbu_sender (pbinfo : proxy_binding_info.t) : option sender :=
  let buf := zero_fill storage in
  let pbu := 0 in
  buf ← new_pbu L pbu buf;
  let len := pbu_sizeof L in
  buf ← pbu_sequence L pbu (sequence pbinfo) buf;
  buf ← pbu_ack L pbu true buf;
  buf ← pbu_proxy_reg L pbu true buf;
  buf ← pbu_lifetime L pbu (lifetime pbinfo ÷ 4000)%Z buf;
  (* NAI Option *)
  let opt := len in
  buf ← new_option opt option_nai (String.length (id pbinfo)) buf;
  let nai := option_get opt in
  buf ← store (nai + nai_subtype_off) [1%Z] buf;
  buf ← store (nai + nai_id_off) (bytes_of_string (id pbinfo)) buf;
  sz ← option_size opt buf;
  let len := len + sz in
  (* Handoff Option *)
  let opt := len in
  buf ← new_option opt (option_handoff L) 0 buf;
  let hof := option_get opt in
  buf ← store (hof + handoff_indicator_off L) [uint8 (handoff pbinfo)] buf;
  sz ← option_size opt buf;
  let len := len + sz in
  (* Access Type Technology *)
  let opt := len in
  buf ← new_option opt (option_att L) 0 buf;
  let att := option_get opt in
  buf ← store (att + att_tech_type_off L) [uint8 (link_type pbinfo)] buf;
  sz ← option_size opt buf;
  let len := len + sz in
  let _length := align_to 8 len in
  buf ← mh_init pbu pbu_mh_type _length buf;
  Some {| _endpoint := address pbinfo; _buffer := buf; _length := _length |}.

Definition pba_sender (pbinfo : proxy_binding_info.t) : option sender :=
  let buf := zero_fill storage in
  let pba := 0 in
  buf ← new_pba L pba buf;
  let len := pba_sizeof L in
  buf ← pba_status L pba (status pbinfo) buf;
  buf ← pba_proxy_reg L pba true buf;
  buf ← pba_sequence L pba (sequence pbinfo) buf;
  buf ← pba_lifetime L pba (lifetime pbinfo ÷ 4000)%Z buf;
  (* NAI Option *)
  let opt := len in
  buf ← new_option opt option_nai (String.length (id pbinfo)) buf;
  let nai := option_get opt in
  buf ← store (nai + nai_subtype_off) [1%Z] buf;
  buf ← store (nai + nai_id_off) (bytes_of_string (id pbinfo)) buf;
  sz ← option_size opt buf;
  let len := len + sz in
  (* Handoff Option *)
  let opt := len in
  buf ← new_option opt (option_handoff L) 0 buf;
  let hof := option_get opt in
  buf ← store (hof + handoff_indicator_off L) [uint8 (handoff pbinfo)] buf;
  sz ← option_size opt buf;
  let len := len + sz in
  (* Access Type Technology *)
  let opt := len in
  buf ← new_option opt (option_att L) 0 buf;
  let att := option_get opt in
  buf ← store (att + att_tech_type_off L) [uint8 (link_type pbinfo)] buf;
  sz ← option_size opt buf;
  let len := len + sz in
  let _length := align_to 8 len in
  buf ← mh_init pba pba_mh_type _length buf;
  Some {| _endpoint := address pbinfo; _buffer := buf; _length := _length |}.
End mp_sender.

(** *** What a receiver reads from the serialized message

    The fields of the header through their readers, and the options by
    walking them from the end of the header, each option giving the start
    of the next through its size. *)

Fixpoint read_options (n : nat) (opt : nat) (buf : list Z)
  : option (list (Z * nat)) :=
  match n with
  | O => Some []
  | S n' =>
      t ← option_type_of opt buf;
      sz ← option_size opt buf;
      rest ← read_options n' (opt + sz) buf;
      Some ((t, sz) :: rest)
  end.

(** The offset behind [n] options. *)
Fixpoint skip_options (n : nat) (opt : nat) (buf : list Z) : option nat :=
  match n with
  | O => Some opt
  | S n' => sz ← option_size opt buf; skip_options n' (opt + sz) buf
  end.

Record options_view := {
  nai_subtype : Z;
  nai_id : list Z;
  handoff_indicator : Z;
  att_tech_type : Z
}.

Section mp_wire.
Context (L : mh_layout) (storage : list Z).
Import proxy_binding_info.

(** The payloads of the three options behind a header of [hdr] bytes.
    The identifier of the NAI option is its payload behind the subtype. *)
Definition read_payloads (hdr : nat) (buf : list Z) : option options_view :=
  let opt := hdr in
  sz ← option_size opt buf;
  subtype ← load (option_get opt + nai_subtype_off) buf;
  idb ← loads (option_get opt + nai_id_off)
              (sz - option_header_size - static_size option_nai) buf;
  let opt := opt + sz in
  sz ← option_size opt buf;
  ind ← load (option_get opt + handoff_indicator_off L) buf;
  let opt := opt + sz in
  tech ← load (option_get opt + att_tech_type_off L) buf;
  Some {| nai_subtype := subtype; nai_id := idb;
          handoff_indicator := ind; att_tech_type := tech |}.

(** The bytes between the end of the third option and the length of the
    message. *)
Definition read_padding (hdr len : nat) (buf : list Z) : option (list Z) :=
  e ← skip_options 3 hdr buf; loads e (len - e) buf.

Definition pbu_wire_lifetime pb :=
  s ← pbu_sender L storage pb; pbu_get_lifetime L 0 (_buffer s).
Definition pbu_wire_ack pb :=
  s ← pbu_sender L storage pb; pbu_get_ack L 0 (_buffer s).
Definition pbu_wire_proxy_reg pb :=
  s ← pbu_sender L storage pb; pbu_get_proxy_reg L 0 (_buffer s).
Definition pbu_wire_length pb :=
  s ← pbu_sender L storage pb; Some (_length s).
Definition pbu_wire_options pb :=
  s ← pbu_sender L storage pb; read_options 3 (pbu_sizeof L) (_buffer s).
Definition pbu_wire_payloads pb :=
  s ← pbu_sender L storage pb; read_payloads (pbu_sizeof L) (_buffer s).
Definition pbu_wire_padding pb :=
  s ← pbu_sender L storage pb;
  read_padding (pbu_sizeof L) (_length s) (_buffer s).

Definition pba_wire_lifetime pb :=
  s ← pba_sender L storage pb; pba_get_lifetime L 0 (_buffer s).
Definition pba_wire_proxy_reg pb :=
  s ← pba_sender L storage pb; pba_get_proxy_reg L 0 (_buffer s).
Definition pba_wire_length pb :=
  s ← pba_sender L storage pb; Some (_length s).
Definition pba_wire_options pb :=
  s ← pba_sender L storage pb; read_options 3 (pba_sizeof L) (_buffer s).
Definition pba_wire_payloads pb :=
  s ← pba_sender L storage pb; read_payloads (pba_sizeof L) (_buffer s).
Definition pba_wire_padding pb :=
  s ← pba_sender L storage pb;
  read_padding (pba_sizeof L) (_length s) (_buffer s).

(** The three options when no length wraps: the NAI option with the
    subtype and the identifier, the handoff and the access technology
    type options with their fixed payloads. *)
Definition nai_option_size pb : nat :=
  option_header_size + (static_size option_nai + String.length (id pb)).
Definition handoff_option_size : nat :=
  option_header_size + handoff_static_size L.
Definition att_option_size : nat :=
  option_header_size + att_static_size L.
Definition options_size pb : nat :=
  nai_option_size pb + handoff_option_size + att_option_size.

(** The buffer has room for the message: beyond it the constructors
    write outside [_buffer]. *)
Definition pbu_fits pb : Prop :=
  align_to 8 (pbu_sizeof L + options_size pb) ≤ length storage.
Definition pba_fits pb : Prop :=
  align_to 8 (pba_sizeof L + options_size pb) ≤ length storage.

(** The payload length as the length byte of the NAI option holds it. *)
Definition nai_length_byte pb : nat :=
  Z.to_nat (uint8 (Z.of_nat (static_size option_nai + String.length (id pb)))).

(** The length byte of the NAI option holds the subtype and the
    identifier. *)
Definition nai_fits pb : Prop :=
  static_size option_nai + String.length (id pb) < 256.

Definition one_byte (v : Z) : Prop := (0 ≤ v < 256)%Z.
End mp_wire.

(** One layout that satisfies [mh_layout_wf]: the framing of RFC 6275
    §6.1.7 and RFC 5213 §8.1, §8.2, §8.4 and §8.5. *)
Definition rfc_mh_layout : mh_layout := {|
  pbu_sizeof := 12;
  pbu_sequence_off := 6;
  pbu_ack_off := 8;
  pbu_ack_mask := 128;
  pbu_proxy_reg_off := 8;
  pbu_proxy_reg_mask := 2;
  pbu_lifetime_off := 10;
  pba_sizeof := 12;
  pba_status_off := 6;
  pba_proxy_reg_off := 7;
  pba_proxy_reg_mask := 32;
  pba_sequence_off := 8;
  pba_lifetime_off := 10;
  handoff_static_size := 2;
  handoff_indicator_off := 1;
  att_static_size := 2;
  att_tech_type_off := 1
|}.

(** The binding of the first scenario of the specification: mobile node
    [mn1], sequence 1, a lifetime of 3600000 ms, first attach, IEEE 802.11. *)
Definition pbinfo_mn1 : proxy_binding_info.t := {|
  proxy_binding_info.address := vreplicate 16 0%Z;
  proxy_binding_info.id := "mn1";
  proxy_binding_info.sequence := 1;
  proxy_binding_info.lifetime := 3600000;
  proxy_binding_info.status := 0;
  proxy_binding_info.handoff := 1;
  proxy_binding_info.link_type := 4
|}.

(** The same binding with a lifetime of 262144000 ms, 65536 units of four
    seconds. *)
Definition pbinfo_long_lifetime : proxy_binding_info.t := {|
  proxy_binding_info.address := vreplicate 16 0%Z;
  proxy_binding_info.id := "mn1";
  proxy_binding_info.sequence := 1;
  proxy_binding_info.lifetime := 262144000;
  proxy_binding_info.status := 0;
  proxy_binding_info.handoff := 1;
  proxy_binding_info.link_type := 4
|}.

(** A string of [n] characters [c]. *)
Fixpoint string_of_char (n : nat) (c : Ascii.ascii) : string :=
  match n with
  | O => EmptyString
  | S n' => String c (string_of_char n' c)
  end.

(** The same binding with an identifier of 255 bytes, the longest
    mobile node identifier: 255 times the letter a (byte 97). *)
Definition pbinfo_id255 : proxy_binding_info.t := {|
  proxy_binding_info.address := vreplicate 16 0%Z;
  proxy_binding_info.id := string_of_char 255 (Ascii.ascii_of_nat 97);
  proxy_binding_info.sequence := 1;
  proxy_binding_info.lifetime := 3600000;
  proxy_binding_info.status := 0;
  proxy_binding_info.handoff := 1;
  proxy_binding_info.link_type := 4
|}.

(** ** The router advertisement structures (ip::icmp and the ip options)

    Sizes, type codes, offsets and masks of
    [ip::icmp::router_advertisement], [ip::opt_source_link_layer],
    [ip::opt_mtu] and [ip::opt_prefix_info].  The size of an option is
    counted in units of 8 bytes. *)

Record icmp_layout := {
  ra_sizeof : nat;
  ra_lifetime_off : nat;
  sll_type : Z;
  sll_units : nat;
  sll_address_off : nat;
  mtu_type : Z;
  mtu_units : nat;
  mtu_value_off : nat;
  pi_type : Z;
  pi_units : nat;
  pi_prefix_length_off : nat;
  pi_L_off : nat;
  pi_L_mask : Z;
  pi_A_off : nat;
  pi_A_mask : Z;
  pi_valid_lifetime_off : nat;
  pi_prefered_lifetime_off : nat;
  pi_prefix_off : nat
}.

(** Modelled from the spec: the ICMPv6 type of a router advertisement,
    "Emitted as ICMPv6 type 134". *)
Definition ra_icmp_type : Z := 134.

Definition icmp_option_header_size : nat := 2.

Definition icmp_layout_wf (I : icmp_layout) : Prop :=
  field_in (ra_lifetime_off I) 2 1 (ra_sizeof I) ∧
  sll_units I < 256 ∧
  field_in (sll_address_off I) 6 icmp_option_header_size (8 * sll_units I) ∧
  mtu_units I < 256 ∧
  field_in (mtu_value_off I) 4 icmp_option_header_size (8 * mtu_units I) ∧
  pi_units I < 256 ∧
  field_in (pi_prefix_length_off I) 1 icmp_option_header_size (8 * pi_units I) ∧
  field_in (pi_L_off I) 1 icmp_option_header_size (8 * pi_units I) ∧
  field_in (pi_A_off I) 1 icmp_option_header_size (8 * pi_units I) ∧
  field_in (pi_valid_lifetime_off I) 4 icmp_option_header_size (8 * pi_units I) ∧
  field_in (pi_prefered_lifetime_off I) 4 icmp_option_header_size (8 * pi_units I) ∧
  field_in (pi_prefix_off I) 16 icmp_option_header_size (8 * pi_units I) ∧
  flag_mask (pi_L_mask I) ∧
  flag_mask (pi_A_mask I) ∧
  apart (pi_L_off I) 1 (pi_prefix_length_off I) 1 ∧
  apart (pi_L_off I) 1 (pi_valid_lifetime_off I) 4 ∧
  apart (pi_L_off I) 1 (pi_prefered_lifetime_off I) 4 ∧
  apart (pi_L_off I) 1 (pi_prefix_off I) 16 ∧
  apart (pi_A_off I) 1 (pi_prefix_length_off I) 1 ∧
  apart (pi_A_off I) 1 (pi_valid_lifetime_off I) 4 ∧
  apart (pi_A_off I) 1 (pi_prefered_lifetime_off I) 4 ∧
  apart (pi_A_off I) 1 (pi_prefix_off I) 16 ∧
  apart (pi_valid_lifetime_off I) 4 (pi_prefered_lifetime_off I) 4 ∧
  apart (pi_valid_lifetime_off I) 4 (pi_prefix_length_off I) 1 ∧
  apart (pi_valid_lifetime_off I) 4 (pi_prefix_off I) 16 ∧
  apart (pi_prefered_lifetime_off I) 4 (pi_prefix_length_off I) 1 ∧
  apart (pi_prefered_lifetime_off I) 4 (pi_prefix_off I) 16 ∧
  apart (pi_prefix_length_off I) 1 (pi_prefix_off I) 16.

(** [ip::prefix_v6]: an address and the number of its leading bits. *)
Record prefix_v6 := {
  prefix_address : vec Z 16;
  prefix_length : Z
}.

Section icmp.
Context (I : icmp_layout).

(** Modelled from the spec: [ip::icmp::router_advertisement], which is not
    among the sources, "ICMPv6 type 134, payload per RFC 4861 §4.2" with a
    16 bit "Router lifetime".  [new(p) router_advertisement()] writes the
    ICMPv6 type and leaves all other fields zero. *)
Definition new_router_advertisement (p : nat) (buf : list Z)
  : option (list Z) :=
  store p (ra_icmp_type :: replicate (ra_sizeof I - 1) 0%Z) buf.

Definition ra_lifetime (this : nat) (v : Z) :=
  store16 (this + ra_lifetime_off I) v.
Definition ra_get_lifetime (this : nat) := load16 (this + ra_lifetime_off I).

(** Modelled from the spec: the options of [ip/icmp_options.hpp], which
    is not among the sources: "Source Link-Layer Address option", "MTU
    option", "Prefix Information option" with "flags L (on-link) and A
    (autonomous)", "valid lifetime" and "preferred lifetime", framed as
    in RFC 4861.  An option starts with its type and its size in units of
    8 bytes; the constructor of each option writes both and zeroes the
    rest, the setters store their field at the offset of the layout. *)
Definition new_icmp_option (p : nat) (type : Z) (units : nat) (buf : list Z)
  : option (list Z) :=
  store p (type :: Z.of_nat units ::
           replicate (8 * units - icmp_option_header_size) 0%Z) buf.

(** [ip::option::size(opt)] *)
Definition icmp_option_size (opt : nat) (buf : list Z) : option nat :=
  l ← load (opt + 1) buf; Some (8 * Z.to_nat l).

Definition icmp_option_type_of (opt : nat) (buf : list Z) : option Z :=
  load opt buf.

Definition new_opt_source_link_layer (p : nat) :=
  new_icmp_option p (sll_type I) (sll_units I).
(** [*sll = mac] *)
Definition sll_assign (this : nat) (mac : vec Z 6) :=
  store (this + sll_address_off I) (vec_to_list mac).
Definition sll_get (this : nat) := loads (this + sll_address_off I) 6.

Definition new_opt_mtu (p : nat) :=
  new_icmp_option p (mtu_type I) (mtu_units I).
Definition mtu_set (this : nat) (v : Z) :=
  store32 (this + mtu_value_off I) v.
Definition mtu_get (this : nat) := load32 (this + mtu_value_off I).

Definition new_opt_prefix_info (p : nat) :=
  new_icmp_option p (pi_type I) (pi_units I).
Definition pi_L (this : nat) (v : bool) :=
  store_flag (this + pi_L_off I) (pi_L_mask I) v.
Definition pi_A (this : nat) (v : bool) :=
  store_flag (this + pi_A_off I) (pi_A_mask I) v.
Definition pi_valid_lifetime (this : nat) (v : Z) :=
  store32 (this + pi_valid_lifetime_off I) v.
Definition pi_prefered_lifetime (this : nat) (v : Z) :=
  store32 (this + pi_prefered_lifetime_off I) v.
Definition pi_prefix (this : nat) (pref : prefix_v6) (buf : list Z)
  : option (list Z) :=
  buf ← store (this + pi_prefix_length_off I) [uint8 (prefix_length pref)] buf;
  store (this + pi_prefix_off I) (vec_to_list (prefix_address pref)) buf.

Definition pi_get_L (this : nat) :=
  load_flag (this + pi_L_off I) (pi_L_mask I).
Definition pi_get_A (this : nat) :=
  load_flag (this + pi_A_off I) (pi_A_mask I).
Definition pi_get_valid_lifetime (this : nat) :=
  load32 (this + pi_valid_lifetime_off I).
Definition pi_get_prefered_lifetime (this : nat) :=
  load32 (this + pi_prefered_lifetime_off I).
Definition pi_get_prefix_length (this : nat) :=
  load (this + pi_prefix_length_off I).
Definition pi_get_prefix (this : nat) := loads (this + pi_prefix_off I) 16.
End icmp.

(** ** lib/opmip/pmip/icmp_sender.cpp *)

Record icmp_sender := {
  icmp_endpoint : vec Z 16 * Z;
  icmp_buffer : list Z;
  icmp_length : nat
}.

Definition icmp_message (s : icmp_sender) : list Z :=
  take (icmp_length s) (icmp_buffer s).

Section icmp_sender.
Context (I : icmp_layout) (storage : list Z).

(** The loop over [preflist]: one prefix information option for each
    prefix, each placed behind the one before. *)
Fixpoint icmp_ra_prefixes (preflist : list prefix_v6) (len : nat)
    (buf : list Z) : option (nat * list Z) :=
  match preflist with
  | [] => Some (len, buf)
  | i :: rest =>
      let pref := len in
      buf ← new_opt_prefix_info I pref buf;
      buf ← pi_L I pref true buf;
      buf ← pi_A I pref true buf;
      buf ← pi_valid_lifetime I pref 7200 buf;
      buf ← pi_prefered_lifetime I pref 1800 buf;
      buf ← pi_prefix I pref i buf;
      sz ← icmp_option_size pref buf;
      icmp_ra_prefixes rest (len + sz) buf
  end.

Definition icmp_ra_sender (mac : vec Z 6) (mtu : Z)
    (preflist : list prefix_v6) (destination : vec Z 16)
  : option icmp_sender :=
  let buf := zero_fill storage in
  let ra := 0 in
  buf ← new_router_advertisement I ra buf;
  let len := ra_sizeof I in
  buf ← ra_lifetime I ra (Z.lnot 0) buf;
  (* Source link layer *)
  let sll := len in
  buf ← new_opt_source_link_layer I sll buf;
  buf ← sll_assign I sll mac buf;
  sz ← icmp_option_size sll buf;
  let len := len + sz in
  (* MTU *)
  let omtu := len in
  buf ← new_opt_mtu I omtu buf;
  buf ← mtu_set I omtu mtu buf;
  sz ← icmp_option_size omtu buf;
  let len := len + sz in
  (* Prefixes *)
  '(len, buf) ← icmp_ra_prefixes preflist len buf;
  Some {| icmp_endpoint := (destination, 0%Z);
          icmp_buffer := buf;
          icmp_length := len |}.
End icmp_sender.

(** *** What a receiver reads from the router advertisement *)

(** The offset behind [n] options. *)
Fixpoint skip_icmp_options (n : nat) (opt : nat) (buf : list Z) : option nat :=
  match n with
  | O => Some opt
  | S n' => sz ← icmp_option_size opt buf; skip_icmp_options n' (opt + sz) buf
  end.

Record prefix_info_view := {
  view_type : Z;
  view_L : bool;
  view_A : bool;
  view_valid_lifetime : Z;
  view_prefered_lifetime : Z;
  view_prefix_length : Z;
  view_prefix : list Z
}.

Section icmp_wire.
Context (I : icmp_layout) (storage : list Z).

Definition read_prefix_info (this : nat) (buf : list Z)
  : option prefix_info_view :=
  t ← icmp_option_type_of this buf;
  l ← pi_get_L I this buf;
  a ← pi_get_A I this buf;
  valid ← pi_get_valid_lifetime I this buf;
  prefered ← pi_get_prefered_lifetime I this buf;
  plen ← pi_get_prefix_length I this buf;
  addr ← pi_get_prefix I this buf;
  Some {| view_type := t; view_L := l; view_A := a;
          view_valid_lifetime := valid;
          view_prefered_lifetime := prefered;
          view_prefix_length := plen; view_prefix := addr |}.

Definition ra_wire_lifetime mac mtu preflist destination :=
  s ← icmp_ra_sender I storage mac mtu preflist destination;
  ra_get_lifetime I 0 (icmp_buffer s).

Definition ra_wire_length mac mtu preflist destination :=
  s ← icmp_ra_sender I storage mac mtu preflist destination;
  Some (icmp_length s).

(** The type and the address of the first option. *)
Definition ra_wire_source_link_layer mac mtu preflist destination :=
  s ← icmp_ra_sender I storage mac mtu preflist destination;
  let opt := ra_sizeof I in
  t ← icmp_option_type_of opt (icmp_buffer s);
  a ← sll_get I opt (icmp_buffer s);
  Some (t, a).

(** The type and the value of the second option. *)
Definition ra_wire_mtu mac mtu preflist destination :=
  s ← icmp_ra_sender I storage mac mtu preflist destination;
  opt ← skip_icmp_options 1 (ra_sizeof I) (icmp_buffer s);
  t ← icmp_option_type_of opt (icmp_buffer s);
  v ← mtu_get I opt (icmp_buffer s);
  Some (t, v).

(** The option behind the first two and [k] more. *)
Definition ra_wire_prefix_info (k : nat) mac mtu preflist destination :=
  s ← icmp_ra_sender I storage mac mtu preflist destination;
  opt ← skip_icmp_options (2 + k) (ra_sizeof I) (icmp_buffer s);
  read_prefix_info opt (icmp_buffer s).

(** The offset behind the first [n] options. *)
Definition ra_wire_options_end (n : nat) mac mtu preflist destination :=
  s ← icmp_ra_sender I storage mac mtu preflist destination;
  skip_icmp_options n (ra_sizeof I) (icmp_buffer s).

(** The prefix information option the sender is to write for a prefix. *)
Definition prefix_info_of (pref : prefix_v6) : prefix_info_view :=
  {| view_type := pi_type I; view_L := true; view_A := true;
     view_valid_lifetime := 7200;
     view_prefered_lifetime := 1800;
     view_prefix_length := uint8 (prefix_length pref);
     view_prefix := vec_to_list (prefix_address pref) |}.

Definition ra_size (preflist : list prefix_v6) : nat :=
  ra_sizeof I + 8 * sll_units I + 8 * mtu_units I
  + length preflist * (8 * pi_units I).

(** The buffer has room for the advertisement. *)
Definition ra_fits (preflist : list prefix_v6) : Prop :=
  ra_size preflist ≤ length storage.
End icmp_wire.

(** One layout that satisfies [icmp_layout_wf]: the message and option
    formats of RFC 4861 §4.2 and §4.6. *)
Definition rfc_icmp_layout : icmp_layout := {|
  ra_sizeof := 16;
  ra_lifetime_off := 6;
  sll_type := 1;
  sll_units := 1;
  sll_address_off := 2;
  mtu_type := 5;
  mtu_units := 1;
  mtu_value_off := 4;
  pi_type := 3;
  pi_units := 4;
  pi_prefix_length_off := 2;
  pi_L_off := 3;
  pi_L_mask := 128;
  pi_A_off := 3;
  pi_A_mask := 64;
  pi_valid_lifetime_off := 4;
  pi_prefered_lifetime_off := 8;
  pi_prefix_off := 16
|}.

(** The prefixes 2001:db8:1::/64 and 2001:db8:2::/64, a MAC address and a
    destination. *)
Definition prefix_db8_1 : prefix_v6 := {|
  prefix_address := [# 32; 1; 13; 184; 0; 1; 0; 0; 0; 0; 0; 0; 0; 0; 0; 0]%Z;
  prefix_length := 64
|}.
Definition prefix_db8_2 : prefix_v6 := {|
  prefix_address := [# 32; 1; 13; 184; 0; 2; 0; 0; 0; 0; 0; 0; 0; 0; 0; 0]%Z;
  prefix_length := 64
|}.
Definition mac_1 : vec Z 6 := [# 170; 187; 204; 0; 0; 1]%Z.
Definition destination_1 : vec Z 16 :=
  [# 254; 128; 0; 0; 0; 0; 0; 0; 168; 187; 204; 255; 254; 0; 0; 1]%Z.

(** An array of 1460 bytes, none of them zero. *)
Definition storage_1460 : list Z := replicate 1460 255%Z.

(** ** inc/opmip/sys/ip6_tunnel_service.hpp *)

(** [std::strncpy(dest, src, n)] writes exactly [n] bytes: the characters
    of [src] up to its terminator, then zeros up to [n]; when [src] has [n]
    characters or more, no terminator is written.  [src] holds the
    characters of the C string; the end of the list, or a zero byte in it,
    is its terminator. *)
Fixpoint strncpy (src : list Z) (n : nat) {struct n} : vec Z n :=
  match n with
  | O => [#]
  | S n' =>
      match src with
      | [] => vreplicate (S n') 0%Z
      | c :: src' =>
          if decide (c = 0%Z) then vreplicate (S n') 0%Z
          else c ::: strncpy src' n'
      end
  end.

(** The length of the C string held by a character array: the number of
    bytes before the first zero byte, [None] when the array holds no zero
    byte (the string is not terminated inside the array). *)
Fixpoint c_strlen (a : list Z) : option nat :=
  match a with
  | [] => None
  | c :: a' => if decide (c = 0%Z) then Some 0 else S <$> c_strlen a'
  end.

(** The characters of a C string: the bytes before its terminator. *)
Fixpoint c_chars (src : list Z) : list Z :=
  match src with
  | [] => []
  | c :: src' => if decide (c = 0%Z) then [] else c :: c_chars src'
  end.

(** The sixteen characters of "0123456789abcdef". *)
Definition sixteen_chars : list Z :=
  [48; 49; 50; 51; 52; 53; 54; 55; 56; 57; 97; 98; 99; 100; 101; 102]%Z.

Module ip6_tunnel_service.

Definition if_name_size : nat := 16.

(** [IPPROTO_IPV6] of the system headers. *)
Definition IPPROTO_IPV6 : Z := 41.

Definition default_protocol : Z := IPPROTO_IPV6.
Definition default_encapsulation_limit : Z := 4.
Definition default_hop_limit : Z := 64.

Record parameters := {
  _name : vec Z if_name_size;
  _link : Z;
  _proto : Z;
  _encap_limit : Z;
  _hop_limit : Z;
  _flowinfo : Z;
  _flags : Z;
  _local_addr : vec Z 16;
  _remote_addr : vec Z 16
}.

(** Modelled from the spec: the constructor [parameters::parameters()],
    declared in the header and defined outside the sources.  A new tunnel
    is created with "encapsulation_limit = 4, hop_limit = 64, flags = 0";
    the values are the [default_*] constants of the class. *)
Definition parameters_new : parameters := {|
  _name := vreplicate if_name_size 0%Z;
  _link := 0;
  _proto := default_protocol;
  _encap_limit := default_encapsulation_limit;
  _hop_limit := default_hop_limit;
  _flowinfo := 0;
  _flags := 0;
  _local_addr := vreplicate 16 0%Z;
  _remote_addr := vreplicate 16 0%Z
|}.

(** The setters.  A parameter of type [uint8] or [uint32] holds the
    argument of the call converted to that type, modulo 256 or 2^32;
    [index] is an [int], as the member it is stored in. *)
Definition name (str : list Z) (p : parameters) : parameters :=
  {| _name := strncpy str if_name_size;
     _link := _link p; _proto := _proto p; _encap_limit := _encap_limit p;
     _hop_limit := _hop_limit p; _flowinfo := _flowinfo p;
     _flags := _flags p; _local_addr := _local_addr p;
     _remote_addr := _remote_addr p |}.

Definition device (index : Z) (p : parameters) : parameters :=
  {| _name := _name p;
     _link := index; _proto := _proto p; _encap_limit := _encap_limit p;
     _hop_limit := _hop_limit p; _flowinfo := _flowinfo p;
     _flags := _flags p; _local_addr := _local_addr p;
     _remote_addr := _remote_addr p |}.

Definition protocol (val : Z) (p : parameters) : parameters :=
  {| _name := _name p;
     _link := _link p; _proto := uint8 val; _encap_limit := _encap_limit p;
     _hop_limit := _hop_limit p; _flowinfo := _flowinfo p;
     _flags := _flags p; _local_addr := _local_addr p;
     _remote_addr := _remote_addr p |}.

Definition encapsulation_limit (val : Z) (p : parameters) : parameters :=
  {| _name := _name p;
     _link := _link p; _proto := _proto p; _encap_limit := uint8 val;
     _hop_limit := _hop_limit p; _flowinfo := _flowinfo p;
     _flags := _flags p; _local_addr := _local_addr p;
     _remote_addr := _remote_addr p |}.

Definition hop_limit (val : Z) (p : parameters) : parameters :=
  {| _name := _name p;
     _link := _link p; _proto := _proto p; _encap_limit := _encap_limit p;
     _hop_limit := uint8 val; _flowinfo := _flowinfo p;
     _flags := _flags p; _local_addr := _local_addr p;
     _remote_addr := _remote_addr p |}.

Definition flowinfo (val : Z) (p : parameters) : parameters :=
  {| _name := _name p;
     _link := _link p; _proto := _proto p; _encap_limit := _encap_limit p;
     _hop_limit := _hop_limit p; _flowinfo := uint32 val;
     _flags := _flags p; _local_addr := _local_addr p;
     _remote_addr := _remote_addr p |}.

Definition flags (val : Z) (p : parameters) : parameters :=
  {| _name := _name p;
     _link := _link p; _proto := _proto p; _encap_limit := _encap_limit p;
     _hop_limit := _hop_limit p; _flowinfo := _flowinfo p;
     _flags := uint32 val; _local_addr := _local_addr p;
     _remote_addr := _remote_addr p |}.

Definition local_address (addr : vec Z 16) (p : parameters) : parameters :=
  {| _name := _name p;
     _link := _link p; _proto := _proto p; _encap_limit := _encap_limit p;
     _hop_limit := _hop_limit p; _flowinfo := _flowinfo p;
     _flags := _flags p; _local_addr := addr;
     _remote_addr := _remote_addr p |}.

Definition remote_address (addr : vec Z 16) (p : parameters) : parameters :=
  {| _name := _name p;
     _link := _link p; _proto := _proto p; _encap_limit := _encap_limit p;
     _hop_limit := _hop_limit p; _flowinfo := _flowinfo p;
     _flags := _flags p; _local_addr := _local_addr p;
     _remote_addr := addr |}.

(** One call of a setter, and a run of such calls on a [parameters]. *)
Inductive setter_call :=
| call_name (str : list Z)
| call_device (index : Z)
| call_protocol (val : Z)
| call_encapsulation_limit (val : Z)
| call_hop_limit (val : Z)
| call_flowinfo (val : Z)
| call_flags (val : Z)
| call_local_address (addr : vec Z 16)
| call_remote_address (addr : vec Z 16).

Definition call (c : setter_call) : parameters → parameters :=
  match c with
  | call_name str => name str
  | call_device index => device index
  | call_protocol val => protocol val
  | call_encapsulation_limit val => encapsulation_limit val
  | call_hop_limit val => hop_limit val
  | call_flowinfo val => flowinfo val
  | call_flags val => flags val
  | call_local_address addr => local_address addr
  | call_remote_address addr => remote_address addr
  end.

Definition calls (cs : list setter_call) (p : parameters) : parameters :=
  foldl (λ p c, call c p) p cs.

Definition overrides_protocol (c : setter_call) : bool :=
  match c with call_protocol _ => true | _ => false end.
Definition overrides_encapsulation_limit (c : setter_call) : bool :=
  match c with call_encapsulation_limit _ => true | _ => false end.
Definition overrides_hop_limit (c : setter_call) : bool :=
  match c with call_hop_limit _ => true | _ => false end.

(** [implementation_type]; [list_hook] is declared outside the sources
    and is a parameter. *)
Record implementation_type (list_hook : Type) := {
  data : parameters;
  node : list_hook;
  impl_delete_on_close : bool
}.
Arguments data {_} _.
Arguments node {_} _.
Arguments impl_delete_on_close {_} _.

(** [bool delete_on_close(implementation_type& impl, bool value)]: the
    value returned and the state of [impl] behind the call. *)
Definition delete_on_close {list_hook : Type}
    (impl : implementation_type list_hook) (value : bool)
  : bool * implementation_type list_hook :=
  let prev := impl_delete_on_close impl in
  let impl := {| data := data impl; node := node impl;
                 impl_delete_on_close := value |} in
  (prev, impl).

(** [bool delete_on_close(const implementation_type& impl) const] *)
Definition delete_on_close_const {list_hook : Type}
    (impl : implementation_type list_hook) : bool :=
  impl_delete_on_close impl.

(** The member of [parameters] that a setter assigns. *)
Inductive member :=
| member_name
| member_link
| member_proto
| member_encap_limit
| member_hop_limit
| member_flowinfo
| member_flags
| member_local_addr
| member_remote_addr.

Definition assigns (c : setter_call) : member :=
  match c with
  | call_name _ => member_name
  | call_device _ => member_link
  | call_protocol _ => member_proto
  | call_encapsulation_limit _ => member_encap_limit
  | call_hop_limit _ => member_hop_limit
  | call_flowinfo _ => member_flowinfo
  | call_flags _ => member_flags
  | call_local_address _ => member_local_addr
  | call_remote_address _ => member_remote_addr
  end.

(** [enum flags] of [parameters]; the setter [flags] has the name in
    this module. *)
Inductive flags_enum :=
| ignore_encapsulation_limit
| use_original_traffic_class
| use_original_flowlabel
| use_original_dscp.

Definition flags_value (f : flags_enum) : Z :=
  match f with
  | ignore_encapsulation_limit => 0x01
  | use_original_traffic_class => 0x02
  | use_original_flowlabel => 0x04
  | use_original_dscp => 0x10
  end.

(** [f1 | f2 | ...], the argument of the setter [flags] for a set of
    options. *)
Definition flags_or (fs : list flags_enum) : Z :=
  foldr (λ f v, Z.lor (flags_value f) v) 0%Z fs.

End ip6_tunnel_service.

(** ** Further readers of the mobility messages *)

Section mp_wire_more.
Context (L : mh_layout) (storage : list Z).
Import proxy_binding_info.

Definition pbu_wire_sequence pb :=
  s ← pbu_sender L storage pb; pbu_get_sequence L 0 (_buffer s).
Definition pba_wire_sequence pb :=
  s ← pba_sender L storage pb; pba_get_sequence L 0 (_buffer s).
Definition pba_wire_status pb :=
  s ← pba_sender L storage pb; pba_get_status L 0 (_buffer s).
Definition pbu_wire_endpoint pb :=
  s ← pbu_sender L storage pb; Some (_endpoint s).
Definition pba_wire_endpoint pb :=
  s ← pba_sender L storage pb; Some (_endpoint s).

(** The bytes of the message behind its header. *)
Definition pbu_wire_body pb :=
  s ← pbu_sender L storage pb;
  loads (pbu_sizeof L) (_length s - pbu_sizeof L) (_buffer s).
Definition pba_wire_body pb :=
  s ← pba_sender L storage pb;
  loads (pba_sizeof L) (_length s - pba_sizeof L) (_buffer s).

(** The three options byte by byte: type, length, payload; the payloads
    of the handoff and of the access technology type option are zero but
    for the indicator and the technology type. *)
Definition nai_option_image pb : list Z :=
  [type_value option_nai;
   uint8 (Z.of_nat (static_size option_nai + String.length (id pb)));
   1%Z] ++ bytes_of_string (id pb).
Definition handoff_option_image pb : list Z :=
  [type_value (option_handoff L); uint8 (Z.of_nat (handoff_static_size L))]
  ++ <[handoff_indicator_off L := uint8 (handoff pb)]>
       (replicate (handoff_static_size L) 0%Z).
Definition att_option_image pb : list Z :=
  [type_value (option_att L); uint8 (Z.of_nat (att_static_size L))]
  ++ <[att_tech_type_off L := uint8 (link_type pb)]>
       (replicate (att_static_size L) 0%Z).
Definition options_image pb : list Z :=
  nai_option_image pb ++ handoff_option_image pb ++ att_option_image pb.

(** A binding information that the PBU, the PBA can carry: the message
    fits the buffer, the identifier fits its option, the handoff indicator,
    the link type and the status are bytes. *)
Definition pbu_encodable pb : Prop :=
  pbu_fits L storage pb ∧ nai_fits pb ∧
  one_byte (handoff pb) ∧ one_byte (link_type pb).
Definition pba_encodable pb : Prop :=
  pba_fits L storage pb ∧ nai_fits pb ∧
  one_byte (handoff pb) ∧ one_byte (link_type pb) ∧ one_byte (status pb).
End mp_wire_more.

(** The binding of [pbinfo_mn1] with another status and a lifetime 999 ms
    longer. *)
Definition pbinfo_mn1_later : proxy_binding_info.t := {|
  proxy_binding_info.address := vreplicate 16 0%Z;
  proxy_binding_info.id := "mn1";
  proxy_binding_info.sequence := 1;
  proxy_binding_info.lifetime := 3600999;
  proxy_binding_info.status := 129;
  proxy_binding_info.handoff := 1;
  proxy_binding_info.link_type := 4
|}.

(** An array too small for the PBU of [pbinfo_mn1]. *)
Definition storage_16 : list Z := replicate 16 255%Z.

(** ** Further readers of the router advertisement *)

Section icmp_wire_more.
Context (I : icmp_layout) (storage : list Z).

Definition ra_wire_message mac mtu preflist destination :=
  icmp_message <$> icmp_ra_sender I storage mac mtu preflist destination.
Definition ra_wire_endpoint mac mtu preflist destination :=
  icmp_endpoint <$> icmp_ra_sender I storage mac mtu preflist destination.

(** The bytes of [_buffer] behind the message. *)
Definition ra_wire_rest mac mtu preflist destination :=
  s ← icmp_ra_sender I storage mac mtu preflist destination;
  loads (icmp_length s) (length (icmp_buffer s) - icmp_length s)
        (icmp_buffer s).
End icmp_wire_more.

(** ** Routing messages (sys/rtnetlink/route.hpp)

    The enumerations of [class route] with the values the compiler gives
    them (an enumerator without an initialiser is the previous one plus
    one, the first one is 0), and the class with its constructor. *)

Module route.

Definition m_begin : Z := 24.
Definition m_new : Z := m_begin.
Definition m_del : Z := m_new + 1.
Definition m_get : Z := m_del + 1.
Definition m_end : Z := m_get + 1.

Inductive table :=
| table_unspecified
| table_compat
| table_default
| table_main
| table_local.

Definition table_value (t : table) : Z :=
  match t with
  | table_unspecified => 0
  | table_compat => 252
  | table_default => 253
  | table_main => 254
  | table_local => 255
  end.

Inductive proto :=
| proto_unspecified
| proto_kernel
| proto_boot
| proto_static
| proto_gated
| proto_ra
| proto_mrt
| proto_zebra
| proto_bird
| proto_dnrouted
| proto_xorp
| proto_ntk
| proto_dhcp.

Definition proto_value (p : proto) : Z :=
  match p with
  | proto_unspecified => 0
  | proto_kernel => 1
  | proto_boot => 2
  | proto_static => 3
  | proto_gated => 4
  | proto_ra => 5
  | proto_mrt => 6
  | proto_zebra => 7
  | proto_bird => 8
  | proto_dnrouted => 9
  | proto_xorp => 10
  | proto_ntk => 11
  | proto_dhcp => 12
  end.

Inductive scope :=
| scope_universe
| scope_site
| scope_link
| scope_host
| scope_nowhere.

Definition scope_value (s : scope) : Z :=
  match s with
  | scope_universe => 0
  | scope_site => 200
  | scope_link => 253
  | scope_host => 254
  | scope_nowhere => 255
  end.

Inductive r_type :=
| r_unspecified
| r_unicast
| r_local
| r_broadcast
| r_anycast
| r_multicast
| r_blackhole
| r_unreachable
| r_prohibit
| r_throw
| r_nat
| r_xresolve.

Definition r_type_value (r : r_type) : Z :=
  match r with
  | r_unspecified => 0
  | r_unicast => 1
  | r_local => 2
  | r_broadcast => 3
  | r_anycast => 4
  | r_multicast => 5
  | r_blackhole => 6
  | r_unreachable => 7
  | r_prohibit => 8
  | r_throw => 9
  | r_nat => 10
  | r_xresolve => 11
  end.

Inductive flags :=
| notify
| cloned
| equalize
| prefix.

Definition flags_value (f : flags) : Z :=
  match f with
  | notify => 0x100
  | cloned => 0x200
  | equalize => 0x400
  | prefix => 0x800
  end.

Definition attr_begin : Z := 1.
Definition attr_destination : Z := attr_begin.
Definition attr_source : Z := attr_destination + 1.
Definition attr_input_device : Z := attr_source + 1.
Definition attr_output_device : Z := attr_input_device + 1.
Definition attr_gateway : Z := attr_output_device + 1.
Definition attr_priority : Z := attr_gateway + 1.
Definition attr_prefered_source : Z := attr_priority + 1.
Definition attr_end : Z := attr_prefered_source + 1.

(** The members of the class: eight of type [uchar] and [uint flags]. *)
Record t := {
  family : Z;
  dst_len : Z;
  src_len : Z;
  tos : Z;
  table_id : Z;
  protocol : Z;
  scope_id : Z;
  type : Z;
  flags_bits : Z
}.

(** [route()] *)
Definition route : t := {|
  family := 0; dst_len := 0; src_len := 0; tos := 0;
  table_id := 0; protocol := 0; scope_id := 0; type := 0;
  flags_bits := 0
|}.

End route.

(** * Properties *)

(** ** ip6_tunnel_service *)

Section tunnel_properties.
Import ip6_tunnel_service.

Lemma c_strlen_zeros n : c_strlen (vreplicate (S n) 0%Z) = Some 0.
Proof. reflexivity. Qed.

(** A string shorter than the array is copied whole and terminated. *)
Lemma strncpy_short src n :
  length (c_chars src) < n →
  c_strlen (strncpy src n) = Some (length (c_chars src)).
Proof.
  revert src; induction n as [|n IH]; intros src Hlen; [lia|].
  destruct src as [|c src]; simpl in *; [reflexivity|].
  destruct (decide (c = 0%Z)) as [->|Hc]; simpl in *.
  - reflexivity.
  - rewrite decide_False by done. rewrite IH by lia. reflexivity.
Qed.

(** A string that fills the array, or is longer, is cut off without a
    terminator. *)
Lemma strncpy_long src n :
  n ≤ length (c_chars src) → c_strlen (strncpy src n) = None.
Proof.
  revert src; induction n as [|n IH]; intros src Hlen; [reflexivity|].
  destruct src as [|c src]; simpl in *; [lia|].
  destruct (decide (c = 0%Z)) as [->|Hc]; simpl in *; [lia|].
  rewrite decide_False by done. rewrite IH by lia. reflexivity.
Qed.

Lemma name_short str p :
  length (c_chars str) < if_name_size →
  c_strlen (_name (name str p)) = Some (length (c_chars str)).
Proof. intros. unfold name; cbn [_name]. by apply strncpy_short. Qed.

Lemma name_long str p :
  if_name_size ≤ length (c_chars str) →
  c_strlen (_name (name str p)) = None.
Proof. intros. unfold name; cbn [_name]. by apply strncpy_long. Qed.

(** C7: the name setter is to leave a name of at most 15 bytes,
    terminated inside the 16 byte array.  [strncpy] with the full size of
    the array does not terminate a name of 16 characters: the array then
    holds the 16 characters and no zero byte. *)
Theorem name_sixteen_chars_not_terminated :
  vec_to_list (_name (name sixteen_chars parameters_new)) = sixteen_chars ∧
  c_strlen (_name (name sixteen_chars parameters_new)) = None ∧
  ¬ (∃ n, c_strlen (_name (name sixteen_chars parameters_new)) = Some n
          ∧ n ≤ 15).
Proof.
  split; [reflexivity|]. split; [reflexivity|].
  intros (n & Hn & _). vm_compute in Hn. discriminate.
Qed.

Lemma calls_snoc cs c p : calls (cs ++ [c]) p = call c (calls cs p).
Proof. unfold calls. by rewrite foldl_app. Qed.

Lemma forallb_snoc {A} (f : A → bool) l x :
  forallb f (l ++ [x]) = true → forallb f l = true ∧ f x = true.
Proof.
  rewrite forallb_app. simpl. rewrite andb_true_r.
  intros H. by apply andb_prop in H.
Qed.

Lemma calls_app cs cs' p : calls (cs ++ cs') p = calls cs' (calls cs p).
Proof. unfold calls. by rewrite foldl_app. Qed.

(** A member keeps its value through the calls of the other setters. *)
Lemma encap_limit_kept cs p :
  forallb (λ c, negb (overrides_encapsulation_limit c)) cs = true →
  _encap_limit (calls cs p) = _encap_limit p.
Proof.
  induction cs as [|c cs IH] using rev_ind; [done|].
  intros [Hcs Hc]%forallb_snoc. rewrite calls_snoc, <- (IH Hcs).
  by destruct c.
Qed.

Lemma hop_limit_kept cs p :
  forallb (λ c, negb (overrides_hop_limit c)) cs = true →
  _hop_limit (calls cs p) = _hop_limit p.
Proof.
  induction cs as [|c cs IH] using rev_ind; [done|].
  intros [Hcs Hc]%forallb_snoc. rewrite calls_snoc, <- (IH Hcs).
  by destruct c.
Qed.

Lemma proto_kept cs p :
  forallb (λ c, negb (overrides_protocol c)) cs = true →
  _proto (calls cs p) = _proto p.
Proof.
  induction cs as [|c cs IH] using rev_ind; [done|].
  intros [Hcs Hc]%forallb_snoc. rewrite calls_snoc, <- (IH Hcs).
  by destruct c.
Qed.

(** C8: a tunnel's parameters start from the defaults encapsulation
    limit 4, hop limit 64 and protocol IPPROTO_IPV6, and each keeps its
    default through every run of setter calls that does not set it.  In
    a run that calls the setter of one of them, the member holds the
    argument of the last such call as the [uint8] parameter holds it,
    which is the argument itself when it is a byte. *)
Theorem new_tunnel_defaults (cs : list setter_call) :
  (forallb (λ c, negb (overrides_encapsulation_limit c)) cs = true →
   _encap_limit (calls cs parameters_new) = 4%Z) ∧
  (forallb (λ c, negb (overrides_hop_limit c)) cs = true →
   _hop_limit (calls cs parameters_new) = 64%Z) ∧
  (forallb (λ c, negb (overrides_protocol c)) cs = true →
   _proto (calls cs parameters_new) = IPPROTO_IPV6) ∧
  (∀ v cs',
     forallb (λ c, negb (overrides_encapsulation_limit c)) cs' = true →
     let p := calls (cs ++ call_encapsulation_limit v :: cs') parameters_new in
     _encap_limit p = uint8 v ∧ (one_byte v → _encap_limit p = v)) ∧
  (∀ v cs',
     forallb (λ c, negb (overrides_hop_limit c)) cs' = true →
     let p := calls (cs ++ call_hop_limit v :: cs') parameters_new in
     _hop_limit p = uint8 v ∧ (one_byte v → _hop_limit p = v)) ∧
  (∀ v cs',
     forallb (λ c, negb (overrides_protocol c)) cs' = true →
     let p := calls (cs ++ call_protocol v :: cs') parameters_new in
     _proto p = uint8 v ∧ (one_byte v → _proto p = v)).
Proof.
  split; [intros H; by rewrite encap_limit_kept|].
  split; [intros H; by rewrite hop_limit_kept|].
  split; [intros H; by rewrite proto_kept|].
  split; [|split]; intros v cs' H; cbv zeta; rewrite calls_app.
  - change (call_encapsulation_limit v :: cs')
      with ([call_encapsulation_limit v] ++ cs').
    rewrite calls_app, encap_limit_kept by done.
    split; [done|]. intros Hv. apply Z.mod_small. exact Hv.
  - change (call_hop_limit v :: cs') with ([call_hop_limit v] ++ cs').
    rewrite calls_app, hop_limit_kept by done.
    split; [done|]. intros Hv. apply Z.mod_small. exact Hv.
  - change (call_protocol v :: cs') with ([call_protocol v] ++ cs').
    rewrite calls_app, proto_kept by done.
    split; [done|]. intros Hv. apply Z.mod_small. exact Hv.
Qed.

Lemma new_tunnel_defaults_witness :
  let cs := [call_name [109; 97; 103; 48]%Z; call_device 3%Z;
             call_local_address (vreplicate 16 1%Z);
             call_remote_address (vreplicate 16 2%Z)] in
  _encap_limit (calls cs parameters_new) = 4%Z ∧
  _hop_limit (calls cs parameters_new) = 64%Z ∧
  _proto (calls cs parameters_new) = 41%Z ∧
  _hop_limit (calls (cs ++ call_hop_limit 8 :: [call_device 5%Z])
                parameters_new) = 8%Z ∧
  _encap_limit (calls (cs ++ call_encapsulation_limit 261
                          :: [call_hop_limit 8]) parameters_new) = 5%Z.
Proof.
  intros cs.
  destruct (new_tunnel_defaults cs) as (He & Hh & Hp & He' & Hh' & _).
  split; [apply He; reflexivity|].
  split; [apply Hh; reflexivity|].
  split; [apply Hp; reflexivity|].
  split.
  - apply (proj2 (Hh' 8%Z [call_device 5%Z] eq_refl)).
    unfold one_byte. lia.
  - exact (proj1 (He' 261%Z [call_hop_limit 8%Z] eq_refl)).
Defined.

(** C10: [delete_on_close(impl, v)] stores [v] in the flag, returns the
    value the flag had, and leaves [data] and [node] as they were; the
    const overload returns the flag. *)
Theorem delete_on_close_frame {list_hook : Type}
    (impl : implementation_type list_hook) (v : bool) :
  impl_delete_on_close (delete_on_close impl v).2 = v ∧
  (delete_on_close impl v).1 = impl_delete_on_close impl ∧
  data (delete_on_close impl v).2 = data impl ∧
  node (delete_on_close impl v).2 = node impl ∧
  delete_on_close_const impl = impl_delete_on_close impl.
Proof. by repeat split. Qed.

End tunnel_properties.

(** ** The packet buffer *)

Section memory.
Implicit Types (p q n : nat) (bs buf : list Z).

Lemma bind_store {A} p bs buf (k : list Z → option A) :
  p + length bs ≤ length buf →
  (store p bs buf ≫= k) = k (list_inserts p bs buf).
Proof. intros. unfold store. by rewrite decide_True. Qed.

Lemma bind_load {A} p buf b (k : Z → option A) :
  buf !! p = Some b → (load p buf ≫= k) = k b.
Proof. intros H. unfold load. by rewrite H. Qed.

Lemma bind_store_flag {A} p m buf (k : list Z → option A) :
  p < length buf →
  (store_flag p m true buf ≫= k) =
  k (list_inserts p [Z.lor (buf !!! p) m] buf).
Proof.
  intros Hp. unfold store_flag, load.
  rewrite (list_lookup_lookup_total_lt buf p) by done. simpl.
  apply bind_store. simpl. lia.
Qed.

Lemma bind_loads {A} p n buf bs (k : list Z → option A) :
  loads p n buf = Some bs → (loads p n buf ≫= k) = k bs.
Proof. by intros ->. Qed.

Lemma bind_option_size {A} opt buf l (k : nat → option A) :
  buf !! (opt + 1) = Some l →
  (option_size opt buf ≫= k) = k (option_header_size + Z.to_nat l).
Proof. intros H. unfold option_size, load. by rewrite H. Qed.

Lemma lookup_inserts_skip buf q bs p :
  p < q ∨ q + length bs ≤ p → list_inserts q bs buf !! p = buf !! p.
Proof.
  intros [?|?]; [by apply list_lookup_inserts_lt|].
  by apply list_lookup_inserts_ge.
Qed.

Lemma lookup_total_inserts_skip buf q bs p :
  p < q ∨ q + length bs ≤ p → list_inserts q bs buf !!! p = buf !!! p.
Proof.
  intros. by rewrite !list_lookup_total_alt, lookup_inserts_skip.
Qed.

Lemma loads_inserts_skip p n q bs buf :
  p + n ≤ q ∨ q + length bs ≤ p →
  loads p n (list_inserts q bs buf) = loads p n buf.
Proof.
  intros Hd. unfold loads. rewrite length_inserts.
  case_decide; [|done]. f_equal. apply list_eq; intros i.
  rewrite !lookup_take. case_decide; [|done].
  rewrite !lookup_drop.
  destruct Hd; [by rewrite list_lookup_inserts_lt by lia|].
  by rewrite list_lookup_inserts_ge by lia.
Qed.

Lemma loads_inserts_hit p bs buf :
  p + length bs ≤ length buf →
  loads p (length bs) (list_inserts p bs buf) = Some bs.
Proof.
  intros Hp. unfold loads. rewrite length_inserts, decide_True by done.
  f_equal. apply list_eq; intros i.
  rewrite lookup_take. case_decide.
  - rewrite lookup_drop, list_lookup_inserts by lia. f_equal; lia.
  - symmetry. apply lookup_ge_None. lia.
Qed.

Lemma loads_zero_fill p n storage :
  p + n ≤ length storage →
  loads p n (zero_fill storage) = Some (replicate n 0%Z).
Proof.
  intros Hp. unfold loads, zero_fill.
  rewrite length_replicate, decide_True by done.
  by rewrite drop_replicate, take_replicate, Nat.min_l by lia.
Qed.

Lemma land_lor_same b m : Z.land (Z.lor b m) m = m.
Proof.
  apply Z.bits_inj'; intros i Hi.
  rewrite Z.land_spec, Z.lor_spec.
  by destruct (Z.testbit b i), (Z.testbit m i).
Qed.

Lemma land_lor_keep b m m' : Z.land b m = m → Z.land (Z.lor b m') m = m.
Proof.
  intros H. apply Z.bits_inj'; intros i Hi.
  apply (f_equal (λ x, Z.testbit x i)) in H.
  rewrite Z.land_spec in H. rewrite Z.land_spec, Z.lor_spec.
  by destruct (Z.testbit b i), (Z.testbit m i), (Z.testbit m' i).
Qed.

Lemma length_bytes_of_string s : length (bytes_of_string s) = String.length s.
Proof. induction s; simpl; by f_equal. Qed.

Lemma uint8_small v : (0 ≤ v < 256)%Z → uint8 v = v.
Proof. intros. unfold uint8. by rewrite Z.mod_small. Qed.

Lemma htons_load v :
  (uint8 (uint16 v / 256) * 256 + uint8 (uint16 v))%Z = uint16 v.
Proof.
  unfold uint8, uint16.
  assert (0 ≤ v mod 65536 < 65536)%Z by (apply Z.mod_pos_bound; lia).
  rewrite (Z.mod_small (_ / 256))
    by (split; [apply Z.div_pos; lia|apply Z.div_lt_upper_bound; lia]).
  pose proof (Z.div_mod (v mod 65536) 256). lia.
Qed.

Lemma htonl_load v :
  (((uint8 (uint32 v / 16777216) * 256 + uint8 (uint32 v / 65536)) * 256
    + uint8 (uint32 v / 256)) * 256 + uint8 (uint32 v))%Z = uint32 v.
Proof.
  unfold uint8, uint32.
  assert (0 ≤ v mod 4294967296 < 4294967296)%Z
    by (apply Z.mod_pos_bound; lia).
  generalize dependent (v mod 4294967296)%Z. intros x Hx.
  rewrite (Z.mod_small (x / 16777216))
    by (split; [apply Z.div_pos; lia|apply Z.div_lt_upper_bound; lia]).
  replace (x / 65536)%Z with (x / 256 / 256)%Z
    by (rewrite Z.div_div by lia; done).
  replace (x / 16777216)%Z with (x / 256 / 256 / 256)%Z
    by (rewrite !Z.div_div by lia; done).
  pose proof (Z.div_mod x 256).
  pose proof (Z.div_mod (x / 256) 256).
  pose proof (Z.div_mod (x / 256 / 256) 256).
  lia.
Qed.

Lemma align_to_8_bounds len :
  len ≤ align_to 8 len < len + 8 ∧ align_to 8 len `mod` 8 = 0.
Proof.
  unfold align_to. simpl Nat.sub.
  pose proof (Nat.div_mod_eq (len + 7) 8).
  pose proof (Nat.mod_upper_bound (len + 7) 8).
  split; [lia|]. apply Nat.Div0.mod_mul.
Qed.

Lemma align_to_8_mono a b : a ≤ b → align_to 8 a ≤ align_to 8 b.
Proof.
  intros. unfold align_to. simpl Nat.sub.
  apply Nat.mul_le_mono_r. apply Nat.Div0.div_le_mono. lia.
Qed.

(** The length byte of an option against the length it is to hold. *)
Lemma length_byte n :
  Z.to_nat (uint8 (Z.of_nat n)) < 256 ∧ Z.to_nat (uint8 (Z.of_nat n)) ≤ n ∧
  (n < 256 → Z.to_nat (uint8 (Z.of_nat n)) = n).
Proof.
  unfold uint8.
  pose proof (Z.mod_pos_bound (Z.of_nat n) 256).
  pose proof (Z.mod_le (Z.of_nat n) 256).
  split; [lia|]. split; [lia|]. intros. rewrite Z.mod_small by lia. lia.
Qed.

Lemma length_byte_small n : n < 256 → Z.to_nat (uint8 (Z.of_nat n)) = n.
Proof. apply length_byte. Qed.
End memory.

(** Lengths of the buffers and byte strings of a run. *)
Ltac len_simpl :=
  unfold zero_fill, htons, htonl;
  cbn [length];
  rewrite ?length_inserts, ?length_replicate, ?length_bytes_of_string,
    ?length_vec_to_list;
  cbn [length].

Ltac solve_len := len_simpl; lia.

(** One store peeled off a lookup: the store lies behind the byte, before
    it, or holds it. *)
Ltac lookup_step :=
  first
  [ rewrite lookup_inserts_skip by solve_len
  | rewrite list_lookup_inserts by solve_len
  | rewrite lookup_inserts_skip by (unfold apart in *; solve_len)
  | rewrite list_lookup_inserts by (unfold apart in *; solve_len) ].

Ltac lookup_total_step :=
  first
  [ rewrite lookup_total_inserts_skip by solve_len
  | rewrite list_lookup_total_inserts by solve_len
  | rewrite lookup_total_inserts_skip by (unfold apart in *; solve_len)
  | rewrite list_lookup_total_inserts by (unfold apart in *; solve_len) ].

(** The index inside the store that holds the byte. *)
Ltac lookup_const :=
  lazymatch goal with
  | |- context [ _ !! (?j - ?p) ] =>
      first [ replace (j - p) with 0 by lia
            | replace (j - p) with 1 by lia
            | replace (j - p) with 2 by lia
            | replace (j - p) with 3 by lia
            | replace (j - p) with 4 by lia
            | replace (j - p) with 5 by lia ]
  | |- context [ _ !!! (?j - ?p) ] =>
      first [ replace (j - p) with 0 by lia
            | replace (j - p) with 1 by lia ]
  end.

Ltac find_byte := repeat lookup_step; lookup_const; reflexivity.

Ltac loads_step :=
  first
  [ rewrite loads_inserts_skip by (len_simpl; lia)
  | rewrite loads_inserts_skip by (unfold apart in *; len_simpl; lia) ].

Ltac refold_nai_length :=
  repeat match goal with w := Z.to_nat _ |- _ => progress fold w end.

Ltac find_bytes := repeat loads_step; apply loads_inserts_hit; solve_len.
Ltac find_zeros := repeat loads_step; apply loads_zero_fill; lia.

(** The length byte of the NAI option when the identifier fits it. *)
Ltac use_nai_fits H :=
  unfold nai_fits in H; cbn [static_size option_nai Nat.add] in H;
  match goal with
  | Hw : _ ∧ _ ∧ (_ → ?w = _) |- _ =>
      let Heq := fresh in
      destruct Hw as (_ & _ & Heq); specialize (Heq H);
      clearbody w; subst w
  end.

Ltac norm_align :=
  match goal with
  | Hf : align_to 8 ?y ≤ _ |- context [align_to 8 ?x] =>
      progress replace x with y by lia
  end.

(** One statement of a constructor. *)
Ltac exec_store := rewrite bind_store by solve_len.
Ltac exec_flag := rewrite bind_store_flag by solve_len.
Ltac exec_size :=
  erewrite bind_option_size by find_byte; unfold option_header_size;
  refold_nai_length.
Ltac exec_load := erewrite bind_load by find_byte.

Ltac abstract_nai_length :=
  match goal with
  | |- context [Z.to_nat (uint8 (Z.of_nat (S (String.length ?s))))] =>
      let w := fresh "w" in
      let Hw := fresh "Hw" in
      pose proof (length_byte (S (String.length s))) as Hw;
      set (w := Z.to_nat (uint8 (Z.of_nat (S (String.length s))))) in *
  end.

Ltac fixed_length :=
  rewrite ?Nat.add_0_r, length_byte_small by lia.

Ltac use_mh_wf H :=
  let Hpbu := fresh in
  let Hpba := fresh in
  let Hopt := fresh in
  destruct H as (Hpbu & Hpba & Hopt);
  destruct Hpbu as (?&?&?&?&?&?&?&?&?&?&?);
  destruct Hpba as (?&?&?&?&?&?&?&?&?&?&?);
  destruct Hopt as (?&?&?&?);
  unfold field_in, flag_mask, mh_header_size in *.

(** The three options, the same statements in both constructors. *)
Ltac exec_options :=
  do 3 exec_store; exec_size; abstract_nai_length;
  do 2 exec_store; exec_size; fixed_length;
  do 2 exec_store; exec_size; fixed_length.

Ltac unfold_mproto :=
  unfold new_pbu, pbu_sequence, pbu_ack, pbu_proxy_reg, pbu_lifetime,
    new_pba, pba_status, pba_sequence, pba_proxy_reg, pba_lifetime,
    store16, new_option, option_get, mh_init,
    nai_subtype_off, nai_id_off, option_header_size;
  cbv zeta;
  cbn [Nat.add type_value static_size option_nai option_handoff option_att].

Ltac use_fits H :=
  unfold pbu_fits, pba_fits, options_size, nai_option_size,
    handoff_option_size, att_option_size, option_header_size in H;
  cbn [static_size option_nai] in H;
  match type of H with
  | align_to 8 ?x ≤ _ => pose proof (align_to_8_bounds x)
  end.

(** The whole of [pbu_sender], of [pba_sender]. *)
Ltac run_pbu Hwf Hfits :=
  use_mh_wf Hwf; use_fits Hfits;
  unfold pbu_sender; unfold_mproto;
  do 2 exec_store; do 2 exec_flag; exec_store;
  exec_options; exec_store; cbn [mbind option_bind _buffer _length].

Ltac run_pba Hwf Hfits :=
  use_mh_wf Hwf; use_fits Hfits;
  unfold pba_sender; unfold_mproto;
  do 2 exec_store; exec_flag; do 2 exec_store;
  exec_options; exec_store; cbn [mbind option_bind _buffer _length].

Section mp_sender_properties.
Context (L : mh_layout) (storage : list Z).
Import proxy_binding_info.
Implicit Types pb : proxy_binding_info.t.

Lemma pbu_wire_lifetime_eq pb :
  mh_layout_wf L → pbu_fits L storage pb →
  pbu_wire_lifetime L storage pb = Some (uint16 (lifetime pb ÷ 4000)).
Proof.
  intros Hwf Hfits. unfold pbu_wire_lifetime. run_pbu Hwf Hfits.
  unfold pbu_get_lifetime, load16. cbn [Nat.add].
  do 2 exec_load. by rewrite htons_load.
Qed.

Lemma pba_wire_lifetime_eq pb :
  mh_layout_wf L → pba_fits L storage pb →
  pba_wire_lifetime L storage pb = Some (uint16 (lifetime pb ÷ 4000)).
Proof.
  intros Hwf Hfits. unfold pba_wire_lifetime. run_pba Hwf Hfits.
  unfold pba_get_lifetime, load16. cbn [Nat.add].
  do 2 exec_load. by rewrite htons_load.
Qed.

Lemma load_flag_set p m buf b :
  buf !! p = Some b → Z.land b m = m → load_flag p m buf = Some true.
Proof.
  intros Hb Hm. unfold load_flag, load. rewrite Hb. simpl.
  by rewrite bool_decide_eq_true_2.
Qed.

Lemma pbu_wire_ack_set pb :
  mh_layout_wf L → pbu_fits L storage pb → pbu_wire_ack L storage pb = Some true.
Proof.
  intros Hwf Hfits. unfold pbu_wire_ack. run_pbu Hwf Hfits.
  unfold pbu_get_ack. cbn [Nat.add].
  destruct (decide (pbu_ack_off L = pbu_proxy_reg_off L)) as [Heq|Hne].
  - eapply load_flag_set; [find_byte|].
    rewrite <- Heq. lookup_total_step. lookup_const.
    apply land_lor_keep, land_lor_same.
  - eapply load_flag_set; [find_byte|]. apply land_lor_same.
Qed.

Lemma pbu_wire_proxy_reg_set pb :
  mh_layout_wf L → pbu_fits L storage pb → pbu_wire_proxy_reg L storage pb = Some true.
Proof.
  intros Hwf Hfits. unfold pbu_wire_proxy_reg. run_pbu Hwf Hfits.
  unfold pbu_get_proxy_reg. cbn [Nat.add].
  eapply load_flag_set; [find_byte|]. apply land_lor_same.
Qed.

Lemma pba_wire_proxy_reg_set pb :
  mh_layout_wf L → pba_fits L storage pb → pba_wire_proxy_reg L storage pb = Some true.
Proof.
  intros Hwf Hfits. unfold pba_wire_proxy_reg. run_pba Hwf Hfits.
  unfold pba_get_proxy_reg. cbn [Nat.add].
  eapply load_flag_set; [find_byte|]. apply land_lor_same.
Qed.

Lemma pbu_wire_options_eq pb :
  mh_layout_wf L → pbu_fits L storage pb →
  pbu_wire_options L storage pb =
    Some [(8%Z, option_header_size + nai_length_byte pb);
          (15%Z, handoff_option_size L); (17%Z, att_option_size L)] ∧
  pbu_wire_length L storage pb =
    Some (align_to 8 (pbu_sizeof L + (option_header_size + nai_length_byte pb)
                      + handoff_option_size L + att_option_size L)).
Proof.
  intros Hwf Hfits. unfold pbu_wire_options, pbu_wire_length.
  run_pbu Hwf Hfits.
  unfold handoff_option_size, att_option_size, nai_length_byte,
    option_header_size.
  cbn [static_size option_nai Nat.add]. refold_nai_length.
  split; [|done].
  unfold read_options, option_type_of.
  exec_load. exec_size. exec_load. exec_size. fixed_length.
  exec_load. exec_size. fixed_length. done.
Qed.

Lemma pbu_wire_payloads_eq pb :
  mh_layout_wf L → pbu_fits L storage pb → nai_fits pb →
  pbu_wire_payloads L storage pb =
    Some {| nai_subtype := 1; nai_id := bytes_of_string (id pb);
            handoff_indicator := uint8 (handoff pb);
            att_tech_type := uint8 (link_type pb) |}.
Proof.
  intros Hwf Hfits Hnai. unfold pbu_wire_payloads.
  run_pbu Hwf Hfits. use_nai_fits Hnai.
  unfold read_payloads, option_get, nai_subtype_off, nai_id_off,
    option_header_size.
  cbv zeta. cbn [static_size option_nai Nat.add].
  exec_size. fixed_length. exec_load.
  replace (2 + S (String.length (id pb)) - 2 - 1)
    with (length (bytes_of_string (id pb)))
    by (rewrite length_bytes_of_string; lia).
  erewrite bind_loads by find_bytes.
  exec_size. fixed_length. exec_load. exec_load. done.
Qed.

Lemma pbu_wire_padding_eq pb :
  mh_layout_wf L → pbu_fits L storage pb → nai_fits pb →
  pbu_wire_padding L storage pb =
    Some (replicate (align_to 8 (pbu_sizeof L + options_size L pb)
                     - (pbu_sizeof L + options_size L pb)) 0%Z).
Proof.
  intros Hwf Hfits Hnai. unfold pbu_wire_padding.
  run_pbu Hwf Hfits. use_nai_fits Hnai.
  unfold options_size, nai_option_size, handoff_option_size,
    att_option_size, option_header_size.
  cbn [static_size option_nai]. norm_align.
  unfold read_padding, skip_options.
  exec_size. fixed_length. exec_size. fixed_length.
  exec_size. fixed_length. cbn [mbind option_bind].
  match goal with
  | |- loads ?e _ _ = Some (replicate (_ - ?e') _) =>
      replace e with e' by lia
  end.
  find_zeros.
Qed.

Lemma pba_wire_options_eq pb :
  mh_layout_wf L → pba_fits L storage pb →
  pba_wire_options L storage pb =
    Some [(8%Z, option_header_size + nai_length_byte pb);
          (15%Z, handoff_option_size L); (17%Z, att_option_size L)] ∧
  pba_wire_length L storage pb =
    Some (align_to 8 (pba_sizeof L + (option_header_size + nai_length_byte pb)
                      + handoff_option_size L + att_option_size L)).
Proof.
  intros Hwf Hfits. unfold pba_wire_options, pba_wire_length.
  run_pba Hwf Hfits.
  unfold handoff_option_size, att_option_size, nai_length_byte,
    option_header_size.
  cbn [static_size option_nai Nat.add]. refold_nai_length.
  split; [|done].
  unfold read_options, option_type_of.
  exec_load. exec_size. exec_load. exec_size. fixed_length.
  exec_load. exec_size. fixed_length. done.
Qed.

Lemma pba_wire_payloads_eq pb :
  mh_layout_wf L → pba_fits L storage pb → nai_fits pb →
  pba_wire_payloads L storage pb =
    Some {| nai_subtype := 1; nai_id := bytes_of_string (id pb);
            handoff_indicator := uint8 (handoff pb);
            att_tech_type := uint8 (link_type pb) |}.
Proof.
  intros Hwf Hfits Hnai. unfold pba_wire_payloads.
  run_pba Hwf Hfits. use_nai_fits Hnai.
  unfold read_payloads, option_get, nai_subtype_off, nai_id_off,
    option_header_size.
  cbv zeta. cbn [static_size option_nai Nat.add].
  exec_size. fixed_length. exec_load.
  replace (2 + S (String.length (id pb)) - 2 - 1)
    with (length (bytes_of_string (id pb)))
    by (rewrite length_bytes_of_string; lia).
  erewrite bind_loads by find_bytes.
  exec_size. fixed_length. exec_load. exec_load. done.
Qed.

Lemma pba_wire_padding_eq pb :
  mh_layout_wf L → pba_fits L storage pb → nai_fits pb →
  pba_wire_padding L storage pb =
    Some (replicate (align_to 8 (pba_sizeof L + options_size L pb)
                     - (pba_sizeof L + options_size L pb)) 0%Z).
Proof.
  intros Hwf Hfits Hnai. unfold pba_wire_padding.
  run_pba Hwf Hfits. use_nai_fits Hnai.
  unfold options_size, nai_option_size, handoff_option_size,
    att_option_size, option_header_size.
  cbn [static_size option_nai]. norm_align.
  unfold read_padding, skip_options.
  exec_size. fixed_length. exec_size. fixed_length.
  exec_size. fixed_length. cbn [mbind option_bind].
  match goal with
  | |- loads ?e _ _ = Some (replicate (_ - ?e') _) =>
      replace e with e' by lia
  end.
  find_zeros.
Qed.
(** C1, as amended: both serializers write into the 16 bit lifetime
    field the lifetime in milliseconds divided by 4000, the quotient
    truncated and then reduced modulo 2^16; for a lifetime from 0 up to
    262143999 ms the field holds the quotient itself. *)
Theorem wire_lifetime_four_second_units pb :
  mh_layout_wf L → pbu_fits L storage pb → pba_fits L storage pb →
  pbu_wire_lifetime L storage pb = Some (uint16 (lifetime pb ÷ 4000)) ∧
  pba_wire_lifetime L storage pb = Some (uint16 (lifetime pb ÷ 4000)) ∧
  ((0 ≤ lifetime pb < 262144000)%Z →
   pbu_wire_lifetime L storage pb = Some (lifetime pb ÷ 4000)%Z ∧
   pba_wire_lifetime L storage pb = Some (lifetime pb ÷ 4000)%Z).
Proof.
  intros Hwf Hpbu Hpba.
  rewrite pbu_wire_lifetime_eq, pba_wire_lifetime_eq by done.
  split; [done|]. split; [done|]. intros Hl.
  assert (uint16 (lifetime pb ÷ 4000) = (lifetime pb ÷ 4000)%Z) as ->; [|done].
  unfold uint16. apply Z.mod_small.
  rewrite Z.quot_div_nonneg by lia.
  split; [apply Z.div_pos; lia|apply Z.div_lt_upper_bound; lia].
Qed.

(** C2: in the serialized PBU the A flag and the P flag are set, in the
    serialized PBA the P flag is set, whatever the binding information. *)
Theorem flags_always_set pb :
  mh_layout_wf L → pbu_fits L storage pb → pba_fits L storage pb →
  pbu_wire_ack L storage pb = Some true ∧
  pbu_wire_proxy_reg L storage pb = Some true ∧
  pba_wire_proxy_reg L storage pb = Some true.
Proof.
  intros. by rewrite pbu_wire_ack_set, pbu_wire_proxy_reg_set,
    pba_wire_proxy_reg_set.
Qed.

(** C3: behind the fixed header a PBU and a PBA hold three options, the
    NAI option (type 8) first, then the handoff option (type 15), then
    the access technology type option (type 17); the length of the
    message is the size of the header plus the sizes of the three
    options, rounded up to the next multiple of 8. *)
Theorem length_aligned_options_ordered pb :
  mh_layout_wf L → pbu_fits L storage pb → pba_fits L storage pb →
  let s1 := option_header_size + nai_length_byte pb in
  let s2 := handoff_option_size L in
  let s3 := att_option_size L in
  let pbu_len := align_to 8 (pbu_sizeof L + s1 + s2 + s3) in
  let pba_len := align_to 8 (pba_sizeof L + s1 + s2 + s3) in
  pbu_wire_options L storage pb = Some [(8%Z, s1); (15%Z, s2); (17%Z, s3)] ∧
  pba_wire_options L storage pb = Some [(8%Z, s1); (15%Z, s2); (17%Z, s3)] ∧
  pbu_wire_length L storage pb = Some pbu_len ∧
  pba_wire_length L storage pb = Some pba_len ∧
  (pbu_len `mod` 8 = 0 ∧
   pbu_sizeof L + s1 + s2 + s3 ≤ pbu_len < pbu_sizeof L + s1 + s2 + s3 + 8) ∧
  (pba_len `mod` 8 = 0 ∧
   pba_sizeof L + s1 + s2 + s3 ≤ pba_len < pba_sizeof L + s1 + s2 + s3 + 8) ∧
  (nai_fits pb → s1 = nai_option_size pb).
Proof.
  intros Hwf Hpbu Hpba. cbv zeta.
  destruct (pbu_wire_options_eq pb Hwf Hpbu) as [-> ->].
  destruct (pba_wire_options_eq pb Hwf Hpba) as [-> ->].
  repeat split; try done; try apply align_to_8_bounds.
  unfold nai_fits, nai_option_size, nai_length_byte. intros Hnai.
  by rewrite length_byte_small.
Qed.

(** C4: for an identifier that the length byte of the NAI option holds
    with its subtype (at most 254 bytes), the NAI option of a PBU and of
    a PBA has subtype 1 and carries the bytes of the mobile node
    identifier, as many as the identifier has; the handoff option
    carries the one byte handoff indicator and the access technology
    type option the one byte link type of the binding information. *)
Theorem options_carry_identifier_handoff_link_type pb :
  mh_layout_wf L → pbu_fits L storage pb → pba_fits L storage pb →
  nai_fits pb → one_byte (handoff pb) → one_byte (link_type pb) →
  let view := {| nai_subtype := 1;
                 nai_id := bytes_of_string (id pb);
                 handoff_indicator := handoff pb;
                 att_tech_type := link_type pb |} in
  pbu_wire_payloads L storage pb = Some view ∧
  pba_wire_payloads L storage pb = Some view ∧
  length (nai_id view) = String.length (id pb).
Proof.
  intros Hwf Hpbu Hpba Hnai Hh Hl. cbv zeta.
  rewrite pbu_wire_payloads_eq, pba_wire_payloads_eq by done.
  rewrite !uint8_small by done.
  repeat split. apply length_bytes_of_string.
Qed.

(** C9: for an identifier that the length byte of the NAI option holds
    with its subtype (at most 254 bytes), the bytes of a PBU and of a PBA
    between the end of the third option and the aligned length of the
    message are zero; for every identifier the constructors return the
    same message whatever the array [_buffer] held before. *)
Theorem padding_is_zero pb :
  mh_layout_wf L → pbu_fits L storage pb → pba_fits L storage pb →
  (nai_fits pb →
   pbu_wire_padding L storage pb =
     Some (replicate (align_to 8 (pbu_sizeof L + options_size L pb)
                      - (pbu_sizeof L + options_size L pb)) 0%Z) ∧
   pba_wire_padding L storage pb =
     Some (replicate (align_to 8 (pba_sizeof L + options_size L pb)
                      - (pba_sizeof L + options_size L pb)) 0%Z)) ∧
  (∀ storage', length storage' = length storage →
     pbu_sender L storage' pb = pbu_sender L storage pb ∧
     pba_sender L storage' pb = pba_sender L storage pb).
Proof.
  intros Hwf Hpbu Hpba. split.
  - intros Hnai.
    by rewrite pbu_wire_padding_eq, pba_wire_padding_eq by done.
  - intros storage' Hlen.
    unfold pbu_sender, pba_sender, zero_fill. by rewrite Hlen.
Qed.
End mp_sender_properties.

(** The layout of the RFCs is well formed. *)
Lemma rfc_mh_layout_wf : mh_layout_wf rfc_mh_layout.
Proof.
  unfold mh_layout_wf, pbu_layout_wf, pba_layout_wf, mh_options_wf,
    field_in, apart, flag_mask, mh_header_size; simpl. lia.
Qed.

(** ** icmp_sender *)

Section agree.
Context (n : nat) (buf buf' : list Z) (Hagree : agree_below n buf buf').

Lemma load_agree p : p < n → load p buf' = load p buf.
Proof. intros. unfold load. by apply Hagree. Qed.

Lemma load16_agree p : p + 2 ≤ n → load16 p buf' = load16 p buf.
Proof. intros. unfold load16. by rewrite !load_agree by lia. Qed.

Lemma load32_agree p : p + 4 ≤ n → load32 p buf' = load32 p buf.
Proof. intros. unfold load32. by rewrite !load_agree by lia. Qed.

Lemma load_flag_agree p m : p < n → load_flag p m buf' = load_flag p m buf.
Proof. intros. unfold load_flag. by rewrite load_agree. Qed.

Lemma loads_agree p m : p + m ≤ n → loads p m buf' = loads p m buf.
Proof.
  intros. destruct Hagree as [Hlen Hbytes]. unfold loads. rewrite Hlen.
  case_decide; [|done]. f_equal. apply list_eq; intros i.
  rewrite !lookup_take. case_decide; [|done].
  rewrite !lookup_drop. apply Hbytes. lia.
Qed.

Lemma icmp_option_size_agree p :
  p + 2 ≤ n → icmp_option_size p buf' = icmp_option_size p buf.
Proof. intros. unfold icmp_option_size. by rewrite load_agree by lia. Qed.
End agree.

Lemma agree_below_refl n buf : agree_below n buf buf.
Proof. by split. Qed.

Lemma agree_below_trans n m b1 b2 b3 :
  n ≤ m → agree_below n b1 b2 → agree_below m b2 b3 → agree_below n b1 b3.
Proof.
  intros Hnm [Hl1 H1] [Hl2 H2]. split; [congruence|].
  intros j Hj. rewrite H2 by lia. by apply H1.
Qed.

Lemma agree_below_inserts n p bs buf :
  n ≤ p → agree_below n buf (list_inserts p bs buf).
Proof.
  intros. split; [apply length_inserts|].
  intros j Hj. apply list_lookup_inserts_lt. lia.
Qed.

Ltac use_icmp_wf H :=
  destruct H as (?&?&?&?&?&?&?&?&?&?&?&?&?&?&?&?&?&?&?&?&?&?&?&?&?&?&?&?);
  unfold field_in, flag_mask, icmp_option_header_size in *.

Ltac unfold_icmp :=
  unfold new_router_advertisement, ra_lifetime,
    new_opt_source_link_layer, sll_assign, new_opt_mtu, mtu_set,
    new_opt_prefix_info, pi_L, pi_A, pi_valid_lifetime, pi_prefered_lifetime,
    pi_prefix, new_icmp_option, store16, store32, icmp_option_header_size;
  cbv zeta.

Lemma bind_icmp_option_size {A} opt buf units (k : nat → option A) :
  buf !! (opt + 1) = Some (Z.of_nat units) →
  (icmp_option_size opt buf ≫= k) = k (8 * units).
Proof.
  intros H. unfold icmp_option_size, load. rewrite H. simpl.
  by rewrite Nat2Z.id.
Qed.

Ltac exec_icmp_size := erewrite bind_icmp_option_size by find_byte.

Lemma store_Some p bs buf :
  p + length bs ≤ length buf → store p bs buf = Some (list_inserts p bs buf).
Proof. intros. unfold store. by rewrite decide_True. Qed.

Lemma icmp_option_size_Some opt buf units :
  buf !! (opt + 1) = Some (Z.of_nat units) →
  icmp_option_size opt buf = Some (8 * units).
Proof.
  intros H. unfold icmp_option_size, load. rewrite H. simpl.
  by rewrite Nat2Z.id.
Qed.

Lemma loads_inserts_found p n bs buf :
  length bs = n → p + n ≤ length buf →
  loads p n (list_inserts p bs buf) = Some bs.
Proof. intros <- ?. by apply loads_inserts_hit. Qed.

Ltac find_field :=
  repeat loads_step; apply loads_inserts_found; [solve_len|solve_len].

Lemma bind_load_flag {A} p m buf b (k : bool → option A) :
  buf !! p = Some b → Z.land b m = m → (load_flag p m buf ≫= k) = k true.
Proof. intros Hb Hm. by rewrite (load_flag_set _ _ _ _ Hb Hm). Qed.

Lemma load32_found p buf v :
  loads p 4 buf = Some (htonl v) → load32 p buf = Some (uint32 v).
Proof.
  unfold loads, load32, load. case_decide; [|done]. intros [= Hv].
  assert (∀ i, i < 4 → buf !! (p + i) = htonl v !! i) as Hi.
  { intros i Hi. by rewrite <- Hv, lookup_take, decide_True, lookup_drop. }
  rewrite <- (Nat.add_0_r p) at 1.
  rewrite !Hi by lia. simpl. by rewrite htonl_load.
Qed.

Lemma bind_load32 {A} p buf v (k : Z → option A) :
  loads p 4 buf = Some (htonl v) → (load32 p buf ≫= k) = k (uint32 v).
Proof. intros H. by rewrite (load32_found _ _ _ H). Qed.


Section icmp_sender_properties.
Context (I : icmp_layout) (storage : list Z).

(** One turn of the loop. *)
Lemma prefix_info_written pref len buf :
  icmp_layout_wf I → len + 8 * pi_units I ≤ length buf →
  ∃ buf',
    (∀ A (k : list Z → option A),
       (buf ← new_opt_prefix_info I len buf;
        buf ← pi_L I len true buf;
        buf ← pi_A I len true buf;
        buf ← pi_valid_lifetime I len 7200 buf;
        buf ← pi_prefered_lifetime I len 1800 buf;
        buf ← pi_prefix I len pref buf;
        k buf) = k buf') ∧
    agree_below len buf buf' ∧
    icmp_option_size len buf' = Some (8 * pi_units I) ∧
    read_prefix_info I len buf' = Some (prefix_info_of I pref).
Proof.
  intros Hwf Hlen. use_icmp_wf Hwf.
  assert (∃ flagged,
    (∀ A (k : list Z → option A),
       (buf ← new_opt_prefix_info I len buf;
        buf ← pi_L I len true buf;
        buf ← pi_A I len true buf;
        k buf) = k flagged) ∧
    length flagged = length buf ∧
    (∃ b, flagged !! (len + pi_L_off I) = Some b ∧
          Z.land b (pi_L_mask I) = pi_L_mask I) ∧
    (∃ b, flagged !! (len + pi_A_off I) = Some b ∧
          Z.land b (pi_A_mask I) = pi_A_mask I) ∧
    flagged !! len = Some (pi_type I) ∧
    flagged !! (len + 1) = Some (Z.of_nat (pi_units I)) ∧
    agree_below len buf flagged)
    as (flagged & Hrun & Hflagged & (bL & HbL & HL) & (bA & HbA & HA)
        & Htype & Hunits & Hagree).
  { eexists. split.
    { intros A k. unfold_icmp. exec_store. do 2 exec_flag. reflexivity. }
    split; [solve_len|]. split; [|split; [|split; [|split]]].
    - destruct (decide (pi_L_off I = pi_A_off I)) as [Heq|Hne].
      + rewrite Heq. eexists. split; [find_byte|].
        lookup_total_step. lookup_const. apply land_lor_keep, land_lor_same.
      + eexists. split; [find_byte|]. apply land_lor_same.
    - eexists. split; [find_byte|]. apply land_lor_same.
    - rewrite <- (Nat.add_0_r len) at 2. find_byte.
    - find_byte.
    - split; [solve_len|]. intros j Hj. by repeat lookup_step. }
  eexists. split.
  { intros A k. rewrite Hrun. unfold_icmp. do 4 exec_store. reflexivity. }
  split; [|split].
  - split; [solve_len|]. intros j Hj. repeat lookup_step. by apply Hagree.
  - apply icmp_option_size_Some. by repeat lookup_step.
  - unfold read_prefix_info, icmp_option_type_of, pi_get_L, pi_get_A,
      pi_get_valid_lifetime, pi_get_prefered_lifetime, pi_get_prefix_length,
      pi_get_prefix, prefix_info_of.
    erewrite bind_load by (repeat lookup_step; exact Htype).
    erewrite bind_load_flag; [|repeat lookup_step; exact HbL|exact HL].
    erewrite bind_load_flag; [|repeat lookup_step; exact HbA|exact HA].
    erewrite bind_load32 by find_field.
    erewrite bind_load32 by find_field.
    exec_load.
    erewrite bind_loads by find_field.
    done.
Qed.

Lemma read_prefix_info_agree n buf buf' p :
  icmp_layout_wf I → agree_below n buf buf' → p + 8 * pi_units I ≤ n →
  read_prefix_info I p buf' = read_prefix_info I p buf.
Proof.
  intros Hwf Hagree Hp. use_icmp_wf Hwf.
  unfold read_prefix_info, icmp_option_type_of, pi_get_L, pi_get_A,
    pi_get_valid_lifetime, pi_get_prefered_lifetime, pi_get_prefix_length,
    pi_get_prefix.
  rewrite (load_agree _ _ _ Hagree p) by lia.
  rewrite !(load_flag_agree _ _ _ Hagree) by lia.
  rewrite !(load32_agree _ _ _ Hagree) by lia.
  rewrite (load_agree _ _ _ Hagree (p + _)) by lia.
  by rewrite (loads_agree _ _ _ Hagree) by lia.
Qed.

(** The loop: the options lie one behind the other from [len] on, one
    for each prefix and in the order of the list. *)
Lemma icmp_ra_prefixes_run preflist :
  icmp_layout_wf I →
  ∀ len buf,
  len + length preflist * (8 * pi_units I) ≤ length buf →
  ∃ buf',
    icmp_ra_prefixes I preflist len buf =
      Some (len + length preflist * (8 * pi_units I), buf') ∧
    agree_below len buf buf' ∧
    skip_icmp_options (length preflist) len buf' =
      Some (len + length preflist * (8 * pi_units I)) ∧
    ∀ k pref, preflist !! k = Some pref →
      skip_icmp_options k len buf' = Some (len + k * (8 * pi_units I)) ∧
      read_prefix_info I (len + k * (8 * pi_units I)) buf' =
        Some (prefix_info_of I pref).
Proof.
  intros Hwf. induction preflist as [|pref rest IH]; intros len buf Hlen.
  - exists buf. cbn [icmp_ra_prefixes skip_icmp_options length].
    rewrite Nat.mul_0_l, Nat.add_0_r.
    split; [done|]. split; [apply agree_below_refl|]. split; [done|].
    intros k pref Hk. by rewrite lookup_nil in Hk.
  - cbn [length] in Hlen.
    destruct (prefix_info_written pref len buf Hwf) as
      (buf1 & Hrun & Hagree1 & Hsize1 & Hread1); [lia|].
    destruct (IH (len + 8 * pi_units I) buf1) as
      (buf' & Hrest & Hagree' & Hskip' & Hopts').
    { destruct Hagree1 as [-> _]. lia. }
    assert (icmp_option_size len buf' = Some (8 * pi_units I)) as Hsize'.
    { rewrite (icmp_option_size_agree _ _ _ Hagree') by (use_icmp_wf Hwf; lia).
      done. }
    exists buf'. cbn [icmp_ra_prefixes length]. rewrite Hrun, Hsize1.
    cbn [mbind option_bind]. rewrite Hrest.
    replace (len + 8 * pi_units I + length rest * (8 * pi_units I))
      with (len + S (length rest) * (8 * pi_units I)) by lia.
    split; [done|]. split; [|split].
    + eapply agree_below_trans; [|exact Hagree1|exact Hagree']. lia.
    + cbn [skip_icmp_options]. rewrite Hsize'. cbn [mbind option_bind].
      rewrite Hskip'. f_equal. lia.
    + intros [|k] pref' Hk.
      * injection Hk as ->. cbn [skip_icmp_options].
        rewrite Nat.mul_0_l, Nat.add_0_r. split; [done|].
        by rewrite (read_prefix_info_agree _ _ _ _ Hwf Hagree').
      * destruct (Hopts' k pref' Hk) as [Hs Hr].
        cbn [skip_icmp_options]. rewrite Hsize'. cbn [mbind option_bind].
        replace (len + S k * (8 * pi_units I))
          with (len + 8 * pi_units I + k * (8 * pi_units I)) by lia.
        done.
Qed.

(** The statements of [icmp_ra_sender] before the loop. *)
Lemma icmp_ra_sender_header mac mtu preflist destination :
  icmp_layout_wf I → ra_fits I storage preflist →
  ∃ hdr,
    icmp_ra_sender I storage mac mtu preflist destination =
      ('(len, buf) ← icmp_ra_prefixes I preflist
          (ra_sizeof I + 8 * sll_units I + 8 * mtu_units I) hdr;
       Some {| icmp_endpoint := (destination, 0%Z);
               icmp_buffer := buf; icmp_length := len |}) ∧
    length hdr = length storage ∧
    ra_get_lifetime I 0 hdr = Some 65535%Z ∧
    icmp_option_type_of (ra_sizeof I) hdr = Some (sll_type I) ∧
    sll_get I (ra_sizeof I) hdr = Some (vec_to_list mac) ∧
    icmp_option_size (ra_sizeof I) hdr = Some (8 * sll_units I) ∧
    icmp_option_type_of (ra_sizeof I + 8 * sll_units I) hdr
      = Some (mtu_type I) ∧
    mtu_get I (ra_sizeof I + 8 * sll_units I) hdr = Some (uint32 mtu) ∧
    icmp_option_size (ra_sizeof I + 8 * sll_units I) hdr
      = Some (8 * mtu_units I).
Proof.
  intros Hwf Hfits. use_icmp_wf Hwf. unfold ra_fits, ra_size in Hfits.
  eexists. split.
  { unfold icmp_ra_sender. unfold_icmp. cbn [Nat.add].
    do 4 exec_store. exec_icmp_size. do 2 exec_store. exec_icmp_size.
    reflexivity. }
  split; [solve_len|].
  unfold ra_get_lifetime, icmp_option_type_of, sll_get, mtu_get, load16.
  cbn [Nat.add].
  split; [by do 2 exec_load|].
  split. { unfold load. rewrite <- (Nat.add_0_r (ra_sizeof I)) at 1. find_byte. }
  split; [find_field|].
  split; [apply icmp_option_size_Some; find_byte|].
  split.
  { unfold load.
    rewrite <- (Nat.add_0_r (ra_sizeof I + 8 * sll_units I)) at 1. find_byte. }
  split; [|apply icmp_option_size_Some; find_byte].
  apply load32_found. find_field.
Qed.

(** The whole of [icmp_ra_sender]. *)
Lemma icmp_ra_sender_run mac mtu preflist destination :
  icmp_layout_wf I → ra_fits I storage preflist →
  let opts := ra_sizeof I + 8 * sll_units I + 8 * mtu_units I in
  ∃ buf,
    icmp_ra_sender I storage mac mtu preflist destination =
      Some {| icmp_endpoint := (destination, 0%Z); icmp_buffer := buf;
              icmp_length := ra_size I preflist |} ∧
    ra_get_lifetime I 0 buf = Some 65535%Z ∧
    icmp_option_type_of (ra_sizeof I) buf = Some (sll_type I) ∧
    sll_get I (ra_sizeof I) buf = Some (vec_to_list mac) ∧
    icmp_option_size (ra_sizeof I) buf = Some (8 * sll_units I) ∧
    icmp_option_type_of (ra_sizeof I + 8 * sll_units I) buf
      = Some (mtu_type I) ∧
    mtu_get I (ra_sizeof I + 8 * sll_units I) buf = Some (uint32 mtu) ∧
    icmp_option_size (ra_sizeof I + 8 * sll_units I) buf
      = Some (8 * mtu_units I) ∧
    skip_icmp_options (length preflist) opts buf
      = Some (ra_size I preflist) ∧
    ∀ k pref, preflist !! k = Some pref →
      skip_icmp_options k opts buf = Some (opts + k * (8 * pi_units I)) ∧
      read_prefix_info I (opts + k * (8 * pi_units I)) buf =
        Some (prefix_info_of I pref).
Proof.
  intros Hwf Hfits opts.
  destruct (icmp_ra_sender_header mac mtu preflist destination Hwf Hfits)
    as (hdr & Hsender & Hlen & Hlife & Hsllt & Hsll & Hslls & Hmtut & Hmtu
        & Hmtus).
  destruct (icmp_ra_prefixes_run preflist Hwf opts hdr)
    as (buf & Hloop & Hagree & Hskip & Hopts).
  { rewrite Hlen. exact Hfits. }
  exists buf. rewrite Hsender. fold opts. rewrite Hloop.
  cbn [mbind option_bind]. fold (ra_size I preflist).
  use_icmp_wf Hwf. subst opts.
  unfold ra_get_lifetime, icmp_option_type_of, sll_get, mtu_get in *.
  rewrite (load16_agree _ _ _ Hagree) by lia.
  rewrite !(load_agree _ _ _ Hagree) by lia.
  rewrite (loads_agree _ _ _ Hagree) by lia.
  rewrite !(icmp_option_size_agree _ _ _ Hagree) by lia.
  rewrite (load32_agree _ _ _ Hagree) by lia.
  done.
Qed.

(** C6: the router lifetime of the advertisement is the largest value of
    its 16 bit field. *)
Theorem router_lifetime_maximal mac mtu preflist destination :
  icmp_layout_wf I → ra_fits I storage preflist →
  ra_wire_lifetime I storage mac mtu preflist destination = Some 65535%Z ∧
  uint16 (Z.lnot 0) = 65535%Z ∧
  ∀ v, (0 ≤ uint16 v ≤ 65535)%Z.
Proof.
  intros Hwf Hfits.
  destruct (icmp_ra_sender_run mac mtu preflist destination Hwf Hfits)
    as (buf & Hsender & Hlife & _).
  unfold ra_wire_lifetime. rewrite Hsender. cbn [mbind option_bind icmp_buffer].
  split; [done|]. split; [done|]. intros v. unfold uint16.
  pose proof (Z.mod_pos_bound v 65536). lia.
Qed.

(** C5: the advertisement carries, behind its header, a source link
    layer address option with the given MAC address, an MTU option with
    the given MTU, and then for each prefix of the list, in the order of
    the list, one prefix information option with the flags L and A set, a
    valid lifetime of 7200 and a preferred lifetime of 1800 seconds; the
    message ends behind the last of them. *)
Theorem router_advertisement_options mac mtu preflist destination :
  icmp_layout_wf I → ra_fits I storage preflist →
  (0 ≤ mtu < 4294967296)%Z →
  ra_wire_source_link_layer I storage mac mtu preflist destination
    = Some (sll_type I, vec_to_list mac) ∧
  ra_wire_mtu I storage mac mtu preflist destination
    = Some (mtu_type I, mtu) ∧
  (∀ k pref, preflist !! k = Some pref →
     ra_wire_prefix_info I storage k mac mtu preflist destination
       = Some {| view_type := pi_type I; view_L := true; view_A := true;
                 view_valid_lifetime := 7200;
                 view_prefered_lifetime := 1800;
                 view_prefix_length := uint8 (prefix_length pref);
                 view_prefix := vec_to_list (prefix_address pref) |}) ∧
  ra_wire_options_end I storage (2 + length preflist)
      mac mtu preflist destination
    = ra_wire_length I storage mac mtu preflist destination ∧
  ra_wire_length I storage mac mtu preflist destination
    = Some (ra_sizeof I + 8 * sll_units I + 8 * mtu_units I
            + length preflist * (8 * pi_units I)).
Proof.
  intros Hwf Hfits Hmtu.
  destruct (icmp_ra_sender_run mac mtu preflist destination Hwf Hfits)
    as (buf & Hsender & _ & Hsllt & Hsll & Hslls & Hmtut & Hmtuv & Hmtus
        & Hskip & Hopts).
  unfold ra_wire_source_link_layer, ra_wire_mtu, ra_wire_prefix_info,
    ra_wire_options_end, ra_wire_length.
  rewrite Hsender. cbn [mbind option_bind icmp_buffer icmp_length].
  split; [by rewrite Hsllt, Hsll|].
  split.
  { cbn [skip_icmp_options]. rewrite Hslls. cbn [mbind option_bind].
    rewrite Hmtut, Hmtuv. unfold uint32. by rewrite Z.mod_small. }
  split.
  { intros k pref Hk. destruct (Hopts k pref Hk) as [Hs Hr].
    cbn [skip_icmp_options Nat.add].
    rewrite Hslls. cbn [mbind option_bind].
    rewrite Hmtus. cbn [mbind option_bind].
    rewrite Hs. cbn [mbind option_bind]. by rewrite Hr. }
  split; [|done].
  cbn [skip_icmp_options Nat.add].
  rewrite Hslls. cbn [mbind option_bind].
  rewrite Hmtus. cbn [mbind option_bind]. by rewrite Hskip.
Qed.
End icmp_sender_properties.

(** ** The properties at the layouts of the RFCs *)

Ltac layout_facts :=
  unfold mh_layout_wf, pbu_layout_wf, pba_layout_wf, mh_options_wf,
    icmp_layout_wf, field_in, apart, flag_mask, mh_header_size,
    icmp_option_header_size;
  simpl; lia.

Ltac room_facts :=
  unfold pbu_fits, pba_fits, ra_fits, nai_fits, one_byte;
  first [ apply Nat.leb_le; vm_compute; reflexivity
        | apply Nat.ltb_lt; vm_compute; reflexivity
        | simpl; lia ].

(** C1 as stated fails: a lifetime of 262144000 ms is 65536 units of four
    seconds, and both serializers write 0 into the lifetime field. *)
Lemma wire_lifetime_wraps :
  (proxy_binding_info.lifetime pbinfo_long_lifetime ÷ 4000 = 65536)%Z ∧
  pbu_wire_lifetime rfc_mh_layout storage_1460 pbinfo_long_lifetime
    = Some 0%Z ∧
  pba_wire_lifetime rfc_mh_layout storage_1460 pbinfo_long_lifetime
    = Some 0%Z ∧
  pbu_wire_lifetime rfc_mh_layout storage_1460 pbinfo_long_lifetime
    ≠ Some (proxy_binding_info.lifetime pbinfo_long_lifetime ÷ 4000)%Z ∧
  pba_wire_lifetime rfc_mh_layout storage_1460 pbinfo_long_lifetime
    ≠ Some (proxy_binding_info.lifetime pbinfo_long_lifetime ÷ 4000)%Z.
Proof. by vm_compute. Qed.

(** C4 as stated fails: an identifier of 255 bytes with its subtype needs
    a payload length of 256, which the length byte of the NAI option
    holds as 0.  The next option is then placed two bytes behind the
    start of the NAI option, over the subtype and the identifier: the
    NAI option of the message has the subtype byte 15 and no identifier
    byte.  Nothing is written outside the array. *)
Lemma identifier_255_bytes_not_carried :
  String.length (proxy_binding_info.id pbinfo_id255) = 255 ∧
  pbu_fits rfc_mh_layout storage_1460 pbinfo_id255 ∧
  pba_fits rfc_mh_layout storage_1460 pbinfo_id255 ∧
  pbu_wire_payloads rfc_mh_layout storage_1460 pbinfo_id255
    = Some {| nai_subtype := 15; nai_id := [];
              handoff_indicator := 1; att_tech_type := 4 |} ∧
  pba_wire_payloads rfc_mh_layout storage_1460 pbinfo_id255
    = Some {| nai_subtype := 15; nai_id := [];
              handoff_indicator := 1; att_tech_type := 4 |} ∧
  pbu_wire_payloads rfc_mh_layout storage_1460 pbinfo_id255
    ≠ Some {| nai_subtype := 1;
              nai_id := bytes_of_string (proxy_binding_info.id pbinfo_id255);
              handoff_indicator := proxy_binding_info.handoff pbinfo_id255;
              att_tech_type := proxy_binding_info.link_type pbinfo_id255 |} ∧
  pba_wire_payloads rfc_mh_layout storage_1460 pbinfo_id255
    ≠ Some {| nai_subtype := 1;
              nai_id := bytes_of_string (proxy_binding_info.id pbinfo_id255);
              handoff_indicator := proxy_binding_info.handoff pbinfo_id255;
              att_tech_type := proxy_binding_info.link_type pbinfo_id255 |}.
Proof.
  split; [reflexivity|]. split; [room_facts|]. split; [room_facts|].
  by vm_compute.
Qed.

(** C9 as stated fails: for the identifier of 255 bytes the three options
    end 22 bytes into the PBU and the PBA, the length of the message is
    24, and the two bytes between them are bytes of the identifier. *)
Lemma padding_255_bytes_not_zero :
  String.length (proxy_binding_info.id pbinfo_id255) = 255 ∧
  pbu_fits rfc_mh_layout storage_1460 pbinfo_id255 ∧
  pba_fits rfc_mh_layout storage_1460 pbinfo_id255 ∧
  pbu_wire_length rfc_mh_layout storage_1460 pbinfo_id255 = Some 24 ∧
  pba_wire_length rfc_mh_layout storage_1460 pbinfo_id255 = Some 24 ∧
  pbu_wire_padding rfc_mh_layout storage_1460 pbinfo_id255
    = Some [97; 97]%Z ∧
  pba_wire_padding rfc_mh_layout storage_1460 pbinfo_id255
    = Some [97; 97]%Z.
Proof.
  split; [reflexivity|]. split; [room_facts|]. split; [room_facts|].
  by vm_compute.
Qed.

Lemma wire_lifetime_four_second_units_witness :
  mh_layout_wf rfc_mh_layout ∧
  pbu_fits rfc_mh_layout storage_1460 pbinfo_mn1 ∧
  pba_fits rfc_mh_layout storage_1460 pbinfo_mn1 ∧
  pbu_wire_lifetime rfc_mh_layout storage_1460 pbinfo_mn1 = Some 900%Z ∧
  pba_wire_lifetime rfc_mh_layout storage_1460 pbinfo_mn1 = Some 900%Z.
Proof.
  assert (mh_layout_wf rfc_mh_layout) as Hwf by layout_facts.
  assert (pbu_fits rfc_mh_layout storage_1460 pbinfo_mn1) as Hpbu
    by room_facts.
  assert (pba_fits rfc_mh_layout storage_1460 pbinfo_mn1) as Hpba
    by room_facts.
  split; [exact Hwf|]. split; [exact Hpbu|]. split; [exact Hpba|].
  destruct (wire_lifetime_four_second_units rfc_mh_layout storage_1460
              pbinfo_mn1 Hwf Hpbu Hpba) as (_ & _ & H).
  apply H. simpl. lia.
Defined.

Lemma flags_always_set_witness :
  mh_layout_wf rfc_mh_layout ∧
  pbu_fits rfc_mh_layout storage_1460 pbinfo_mn1 ∧
  pba_fits rfc_mh_layout storage_1460 pbinfo_mn1 ∧
  pbu_wire_ack rfc_mh_layout storage_1460 pbinfo_mn1 = Some true ∧
  pbu_wire_proxy_reg rfc_mh_layout storage_1460 pbinfo_mn1 = Some true ∧
  pba_wire_proxy_reg rfc_mh_layout storage_1460 pbinfo_mn1 = Some true.
Proof.
  assert (mh_layout_wf rfc_mh_layout) as Hwf by layout_facts.
  assert (pbu_fits rfc_mh_layout storage_1460 pbinfo_mn1) as Hpbu
    by room_facts.
  assert (pba_fits rfc_mh_layout storage_1460 pbinfo_mn1) as Hpba
    by room_facts.
  split; [exact Hwf|]. split; [exact Hpbu|]. split; [exact Hpba|].
  exact (flags_always_set rfc_mh_layout storage_1460 pbinfo_mn1
           Hwf Hpbu Hpba).
Defined.

Lemma length_aligned_options_ordered_witness :
  mh_layout_wf rfc_mh_layout ∧
  pbu_fits rfc_mh_layout storage_1460 pbinfo_mn1 ∧
  pba_fits rfc_mh_layout storage_1460 pbinfo_mn1 ∧
  pbu_wire_options rfc_mh_layout storage_1460 pbinfo_mn1
    = Some [(8%Z, 6); (15%Z, 4); (17%Z, 4)] ∧
  pba_wire_options rfc_mh_layout storage_1460 pbinfo_mn1
    = Some [(8%Z, 6); (15%Z, 4); (17%Z, 4)] ∧
  pbu_wire_length rfc_mh_layout storage_1460 pbinfo_mn1 = Some 32 ∧
  pba_wire_length rfc_mh_layout storage_1460 pbinfo_mn1 = Some 32.
Proof.
  assert (mh_layout_wf rfc_mh_layout) as Hwf by layout_facts.
  assert (pbu_fits rfc_mh_layout storage_1460 pbinfo_mn1) as Hpbu
    by room_facts.
  assert (pba_fits rfc_mh_layout storage_1460 pbinfo_mn1) as Hpba
    by room_facts.
  split; [exact Hwf|]. split; [exact Hpbu|]. split; [exact Hpba|].
  destruct (length_aligned_options_ordered rfc_mh_layout storage_1460
              pbinfo_mn1 Hwf Hpbu Hpba) as (H1 & H2 & H3 & H4 & _).
  split; [exact H1|]. split; [exact H2|]. split; [exact H3|exact H4].
Defined.

Lemma options_carry_identifier_handoff_link_type_witness :
  mh_layout_wf rfc_mh_layout ∧
  pbu_fits rfc_mh_layout storage_1460 pbinfo_mn1 ∧
  pba_fits rfc_mh_layout storage_1460 pbinfo_mn1 ∧
  nai_fits pbinfo_mn1 ∧
  one_byte (proxy_binding_info.handoff pbinfo_mn1) ∧
  one_byte (proxy_binding_info.link_type pbinfo_mn1) ∧
  pbu_wire_payloads rfc_mh_layout storage_1460 pbinfo_mn1
    = Some {| nai_subtype := 1; nai_id := [109; 110; 49]%Z;
              handoff_indicator := 1; att_tech_type := 4 |} ∧
  pba_wire_payloads rfc_mh_layout storage_1460 pbinfo_mn1
    = Some {| nai_subtype := 1; nai_id := [109; 110; 49]%Z;
              handoff_indicator := 1; att_tech_type := 4 |}.
Proof.
  assert (mh_layout_wf rfc_mh_layout) as Hwf by layout_facts.
  assert (pbu_fits rfc_mh_layout storage_1460 pbinfo_mn1) as Hpbu
    by room_facts.
  assert (pba_fits rfc_mh_layout storage_1460 pbinfo_mn1) as Hpba
    by room_facts.
  assert (nai_fits pbinfo_mn1) as Hnai by room_facts.
  assert (one_byte (proxy_binding_info.handoff pbinfo_mn1)) as Hh
    by room_facts.
  assert (one_byte (proxy_binding_info.link_type pbinfo_mn1)) as Hl
    by room_facts.
  split; [exact Hwf|]. split; [exact Hpbu|]. split; [exact Hpba|].
  split; [exact Hnai|]. split; [exact Hh|]. split; [exact Hl|].
  destruct (options_carry_identifier_handoff_link_type rfc_mh_layout
              storage_1460 pbinfo_mn1 Hwf Hpbu Hpba Hnai Hh Hl)
    as (H1 & H2 & _).
  split; [exact H1|exact H2].
Defined.

Lemma padding_is_zero_witness :
  mh_layout_wf rfc_mh_layout ∧
  pbu_fits rfc_mh_layout storage_1460 pbinfo_mn1 ∧
  pba_fits rfc_mh_layout storage_1460 pbinfo_mn1 ∧
  nai_fits pbinfo_mn1 ∧
  pbu_wire_padding rfc_mh_layout storage_1460 pbinfo_mn1
    = Some [0; 0; 0; 0; 0; 0]%Z ∧
  pba_wire_padding rfc_mh_layout storage_1460 pbinfo_mn1
    = Some [0; 0; 0; 0; 0; 0]%Z.
Proof.
  assert (mh_layout_wf rfc_mh_layout) as Hwf by layout_facts.
  assert (pbu_fits rfc_mh_layout storage_1460 pbinfo_mn1) as Hpbu
    by room_facts.
  assert (pba_fits rfc_mh_layout storage_1460 pbinfo_mn1) as Hpba
    by room_facts.
  assert (nai_fits pbinfo_mn1) as Hnai by room_facts.
  split; [exact Hwf|]. split; [exact Hpbu|]. split; [exact Hpba|].
  split; [exact Hnai|].
  destruct (proj1 (padding_is_zero rfc_mh_layout storage_1460 pbinfo_mn1
                     Hwf Hpbu Hpba) Hnai) as (H1 & H2).
  split; [exact H1|exact H2].
Defined.

Lemma router_lifetime_maximal_witness :
  icmp_layout_wf rfc_icmp_layout ∧
  ra_fits rfc_icmp_layout storage_1460 [prefix_db8_1; prefix_db8_2] ∧
  ra_wire_lifetime rfc_icmp_layout storage_1460 mac_1 1500
      [prefix_db8_1; prefix_db8_2] destination_1 = Some 65535%Z.
Proof.
  assert (icmp_layout_wf rfc_icmp_layout) as Hwf by layout_facts.
  assert (ra_fits rfc_icmp_layout storage_1460 [prefix_db8_1; prefix_db8_2])
    as Hfits by room_facts.
  split; [exact Hwf|]. split; [exact Hfits|].
  exact (proj1 (router_lifetime_maximal rfc_icmp_layout storage_1460 mac_1
                  1500 [prefix_db8_1; prefix_db8_2] destination_1
                  Hwf Hfits)).
Defined.

Lemma router_advertisement_options_witness :
  icmp_layout_wf rfc_icmp_layout ∧
  ra_fits rfc_icmp_layout storage_1460 [prefix_db8_1; prefix_db8_2] ∧
  (0 ≤ 1500 < 4294967296)%Z ∧
  ra_wire_source_link_layer rfc_icmp_layout storage_1460 mac_1 1500
      [prefix_db8_1; prefix_db8_2] destination_1
    = Some (1%Z, [170; 187; 204; 0; 0; 1]%Z) ∧
  ra_wire_mtu rfc_icmp_layout storage_1460 mac_1 1500
      [prefix_db8_1; prefix_db8_2] destination_1
    = Some (5%Z, 1500%Z) ∧
  ra_wire_prefix_info rfc_icmp_layout storage_1460 1 mac_1 1500
      [prefix_db8_1; prefix_db8_2] destination_1
    = Some {| view_type := 3; view_L := true; view_A := true;
              view_valid_lifetime := 7200;
              view_prefered_lifetime := 1800;
              view_prefix_length := 64;
              view_prefix :=
                [32; 1; 13; 184; 0; 2; 0; 0; 0; 0; 0; 0; 0; 0; 0; 0]%Z |} ∧
  ra_wire_length rfc_icmp_layout storage_1460 mac_1 1500
      [prefix_db8_1; prefix_db8_2] destination_1 = Some 96.
Proof.
  assert (icmp_layout_wf rfc_icmp_layout) as Hwf by layout_facts.
  assert (ra_fits rfc_icmp_layout storage_1460 [prefix_db8_1; prefix_db8_2])
    as Hfits by room_facts.
  assert (0 ≤ 1500 < 4294967296)%Z as Hmtu by lia.
  split; [exact Hwf|]. split; [exact Hfits|]. split; [exact Hmtu|].
  destruct (router_advertisement_options rfc_icmp_layout storage_1460 mac_1
              1500 [prefix_db8_1; prefix_db8_2] destination_1
              Hwf Hfits Hmtu) as (H1 & H2 & H3 & _ & H5).
  split; [exact H1|]. split; [exact H2|].
  split; [exact (H3 1 prefix_db8_2 eq_refl)|exact H5].
Defined.

(** ** The messages of the examples, byte by byte *)

Example pbu_sender_mn1 :
  message <$> pbu_sender rfc_mh_layout storage_1460 pbinfo_mn1 =
  Some [59; 3; 5; 0; 0; 0; 0; 1; 130; 0; 3; 132;
        8; 4; 1; 109; 110; 49;
        15; 2; 0; 1;
        17; 2; 0; 4;
        0; 0; 0; 0; 0; 0]%Z.
Proof. by vm_compute. Qed.

Example pba_sender_mn1 :
  message <$> pba_sender rfc_mh_layout storage_1460 pbinfo_mn1 =
  Some [59; 3; 6; 0; 0; 0; 0; 32; 0; 1; 3; 132;
        8; 4; 1; 109; 110; 49;
        15; 2; 0; 1;
        17; 2; 0; 4;
        0; 0; 0; 0; 0; 0]%Z.
Proof. by vm_compute. Qed.

Example icmp_ra_sender_two_prefixes :
  icmp_message <$> icmp_ra_sender rfc_icmp_layout storage_1460 mac_1 1500
                     [prefix_db8_1; prefix_db8_2] destination_1 =
  Some [134; 0; 0; 0; 0; 0; 255; 255; 0; 0; 0; 0; 0; 0; 0; 0;
        1; 1; 170; 187; 204; 0; 0; 1;
        5; 1; 0; 0; 0; 0; 5; 220;
        3; 4; 64; 192; 0; 0; 28; 32; 0; 0; 7; 8; 0; 0; 0; 0;
        32; 1; 13; 184; 0; 1; 0; 0; 0; 0; 0; 0; 0; 0; 0; 0;
        3; 4; 64; 192; 0; 0; 28; 32; 0; 0; 7; 8; 0; 0; 0; 0;
        32; 1; 13; 184; 0; 2; 0; 0; 0; 0; 0; 0; 0; 0; 0; 0]%Z.
Proof. by vm_compute. Qed.

Example name_mag0 :
  c_strlen (ip6_tunnel_service._name
              (ip6_tunnel_service.name [109; 97; 103; 48]%Z
                 ip6_tunnel_service.parameters_new)) = Some 4.
Proof. reflexivity. Qed.

Lemma rfc_icmp_layout_wf : icmp_layout_wf rfc_icmp_layout.
Proof. layout_facts. Qed.

(** * Further properties *)

(** ** Stores that fail *)

Lemma store_inv p bs buf buf' :
  store p bs buf = Some buf' →
  p + length bs ≤ length buf ∧ length buf' = length buf.
Proof.
  unfold store. case_decide; [|done]. intros [= <-].
  by rewrite length_inserts.
Qed.

Lemma store_flag_inv p m v buf buf' :
  store_flag p m v buf = Some buf' → p < length buf ∧ length buf' = length buf.
Proof.
  unfold store_flag, load. destruct (buf !! p) eqn:Hp; [|done]. simpl.
  intros [_ ?]%store_inv. split; [|done]. by eapply lookup_lt_Some.
Qed.

Lemma store_None p bs buf :
  length buf < p + length bs → store p bs buf = None.
Proof. intros. unfold store. by rewrite decide_False by lia. Qed.

Lemma bind_None_of {A B} (m : option A) (k : A → option B) :
  (∀ x, m = Some x → k x = None) → m ≫= k = None.
Proof. destruct m; simpl; eauto. Qed.

(** One statement that ran: the length of the buffer stays, the store was
    inside it. *)
Ltac ran :=
  apply bind_None_of;
  let H := fresh "Hran" in
  intros ? H;
  first [ apply store_inv in H as [? ?]
        | apply store_flag_inv in H as [? ?] ].

(** ** Runs of bytes *)

Lemma loads_app p n m buf a b :
  loads p n buf = Some a → loads (p + n) m buf = Some b →
  loads p (n + m) buf = Some (a ++ b).
Proof.
  unfold loads. repeat case_decide; try done; try lia.
  intros [= <-] [= <-]. f_equal.
  by rewrite <- take_take_drop, drop_drop.
Qed.

Lemma loads_inserts_at p q n bs buf :
  p = q → length bs = n → q + n ≤ length buf →
  loads p n (list_inserts q bs buf) = Some bs.
Proof. intros -> <- ?. by apply loads_inserts_hit. Qed.

Lemma loads_inserts_inside p q n k x buf l :
  q = p + k → k < n → loads p n buf = Some l →
  loads p n (list_inserts q [x] buf) = Some (<[k:=x]> l).
Proof.
  intros -> Hk. unfold loads. rewrite length_inserts.
  case_decide; [|done]. intros [= <-]. f_equal.
  apply list_eq; intros i.
  destruct (decide (i = k)) as [->|Hne].
  - rewrite list_lookup_insert_eq by (rewrite length_take, length_drop; lia).
    rewrite lookup_take_lt, lookup_drop by done.
    rewrite list_lookup_inserts by (simpl; lia).
    by replace (p + k - (p + k)) with 0 by lia.
  - rewrite list_lookup_insert_ne by done.
    rewrite !lookup_take. case_decide; [|done].
    rewrite !lookup_drop. apply lookup_inserts_skip. simpl. lia.
Qed.

Ltac find_piece :=
  repeat loads_step; apply loads_inserts_at; [lia|solve_len|solve_len].
Ltac find_payload :=
  repeat loads_step; eapply loads_inserts_inside; [lia|lia|find_zeros].

Section mp_sender_more.
Context (L : mh_layout) (storage : list Z).
Import proxy_binding_info.
Implicit Types pb : proxy_binding_info.t.

Lemma pbu_wire_sequence_eq pb :
  mh_layout_wf L → pbu_fits L storage pb →
  pbu_wire_sequence L storage pb = Some (uint16 (sequence pb)).
Proof.
  intros Hwf Hfits. unfold pbu_wire_sequence. run_pbu Hwf Hfits.
  unfold pbu_get_sequence, load16. cbn [Nat.add].
  do 2 exec_load. by rewrite htons_load.
Qed.

Lemma pba_wire_sequence_eq pb :
  mh_layout_wf L → pba_fits L storage pb →
  pba_wire_sequence L storage pb = Some (uint16 (sequence pb)).
Proof.
  intros Hwf Hfits. unfold pba_wire_sequence. run_pba Hwf Hfits.
  unfold pba_get_sequence, load16. cbn [Nat.add].
  do 2 exec_load. by rewrite htons_load.
Qed.

Lemma pba_wire_status_eq pb :
  mh_layout_wf L → pba_fits L storage pb →
  pba_wire_status L storage pb = Some (uint8 (status pb)).
Proof.
  intros Hwf Hfits. unfold pba_wire_status. run_pba Hwf Hfits.
  unfold pba_get_status, load. cbn [Nat.add]. find_byte.
Qed.

Lemma pbu_wire_endpoint_eq pb :
  mh_layout_wf L → pbu_fits L storage pb →
  pbu_wire_endpoint L storage pb = Some (address pb).
Proof.
  intros Hwf Hfits. unfold pbu_wire_endpoint. run_pbu Hwf Hfits. done.
Qed.

Lemma pba_wire_endpoint_eq pb :
  mh_layout_wf L → pba_fits L storage pb →
  pba_wire_endpoint L storage pb = Some (address pb).
Proof.
  intros Hwf Hfits. unfold pba_wire_endpoint. run_pba Hwf Hfits. done.
Qed.

(** X1: the sequence number of the binding information is written into the
    16 bit sequence field of the PBU and of the PBA; a sequence number of
    16 bits is read back unchanged. *)
Theorem wire_sequence pb :
  mh_layout_wf L → pbu_fits L storage pb → pba_fits L storage pb →
  pbu_wire_sequence L storage pb = Some (uint16 (sequence pb)) ∧
  pba_wire_sequence L storage pb = Some (uint16 (sequence pb)) ∧
  ((0 ≤ sequence pb < 65536)%Z →
   pbu_wire_sequence L storage pb = Some (sequence pb) ∧
   pba_wire_sequence L storage pb = Some (sequence pb)).
Proof.
  intros Hwf Hpbu Hpba.
  rewrite pbu_wire_sequence_eq, pba_wire_sequence_eq by done.
  split; [done|]. split; [done|]. intros Hs.
  unfold uint16. by rewrite Z.mod_small.
Qed.

(** X2: the status of the binding information is written into the status
    byte of the PBA, and setting the P flag behind it leaves it there. *)
Theorem wire_status pb :
  mh_layout_wf L → pba_fits L storage pb → one_byte (status pb) →
  pba_wire_status L storage pb = Some (status pb) ∧
  pba_wire_proxy_reg L storage pb = Some true.
Proof.
  intros Hwf Hpba Hs.
  rewrite pba_wire_status_eq, pba_wire_proxy_reg_set by done.
  by rewrite uint8_small.
Qed.

(** X3: the lifetime field never overstates the lifetime and falls short
    of it by less than four seconds; a lifetime below 4000 ms is written
    as 0. *)
Theorem wire_lifetime_rounds_down pb :
  mh_layout_wf L → pbu_fits L storage pb → pba_fits L storage pb →
  (0 ≤ lifetime pb < 262144000)%Z →
  ∀ w, pbu_wire_lifetime L storage pb = Some w ∨
       pba_wire_lifetime L storage pb = Some w →
       (4000 * w ≤ lifetime pb < 4000 * w + 4000)%Z ∧
       (w = 0%Z ↔ (lifetime pb < 4000)%Z).
Proof.
  intros Hwf Hpbu Hpba Hl w.
  rewrite pbu_wire_lifetime_eq, pba_wire_lifetime_eq by done.
  assert (uint16 (lifetime pb ÷ 4000) = (lifetime pb ÷ 4000)%Z) as ->.
  { unfold uint16. apply Z.mod_small. rewrite Z.quot_div_nonneg by lia.
    split; [apply Z.div_pos; lia|apply Z.div_lt_upper_bound; lia]. }
  rewrite Z.quot_div_nonneg by lia.
  intros Hw. assert (w = lifetime pb / 4000)%Z as -> by (destruct Hw; congruence).
  pose proof (Z.div_mod (lifetime pb) 4000).
  pose proof (Z.mod_pos_bound (lifetime pb) 4000). lia.
Qed.

(** X4: neither constructor compares the length of the identifier with the
    size of [_buffer]: an identifier that does not fit behind the header
    and the three bytes before it is copied across the end of the array. *)
Theorem identifier_overflows_buffer pb :
  (length storage < pbu_sizeof L + 3 + String.length (id pb) →
   pbu_sender L storage pb = None) ∧
  (length storage < pba_sizeof L + 3 + String.length (id pb) →
   pba_sender L storage pb = None).
Proof.
  split; intros Hlen.
  - unfold pbu_sender, new_pbu, pbu_sequence, pbu_ack, pbu_proxy_reg,
      pbu_lifetime, store16, new_option, option_get, nai_subtype_off,
      nai_id_off, option_header_size, zero_fill.
    cbv zeta. do 7 ran. apply bind_None_of. intros ? Hid.
    apply store_inv in Hid as [Hid _].
    rewrite length_bytes_of_string in Hid.
    rewrite length_replicate in *. lia.
  - unfold pba_sender, new_pba, pba_status, pba_sequence, pba_proxy_reg,
      pba_lifetime, store16, new_option, option_get, nai_subtype_off,
      nai_id_off, option_header_size, zero_fill.
    cbv zeta. do 7 ran. apply bind_None_of. intros ? Hid.
    apply store_inv in Hid as [Hid _].
    rewrite length_bytes_of_string in Hid.
    rewrite length_replicate in *. lia.
Qed.

Lemma pbu_wire_body_eq pb :
  mh_layout_wf L → pbu_fits L storage pb → nai_fits pb →
  pbu_wire_body L storage pb =
    Some (options_image L pb ++
          replicate (align_to 8 (pbu_sizeof L + options_size L pb)
                     - (pbu_sizeof L + options_size L pb)) 0%Z).
Proof.
  intros Hwf Hfits Hnai. unfold pbu_wire_body.
  run_pbu Hwf Hfits. use_nai_fits Hnai.
  unfold options_size, nai_option_size, handoff_option_size,
    att_option_size, option_header_size.
  cbn [static_size option_nai]. norm_align.
  unfold options_image, nai_option_image, handoff_option_image,
    att_option_image.
  cbn [static_size option_nai option_handoff option_att type_value].
  match goal with
  | |- loads _ (?a - _) _ = Some (_ ++ replicate ?pad _) =>
      replace (a - pbu_sizeof L)
        with (2 + (1 + (String.length (id pb)
              + (2 + (handoff_static_size L
                 + (2 + (att_static_size L + pad)))))))
        by lia
  end.
  rewrite <- !app_assoc.
  change ([?a; ?b; ?c] ++ ?rest) with ([a; b] ++ [c] ++ rest).
  apply loads_app; [find_piece|].
  apply loads_app; [find_piece|].
  apply loads_app; [find_piece|].
  apply loads_app; [find_piece|].
  apply loads_app; [find_payload|].
  apply loads_app; [find_piece|].
  apply loads_app; [find_payload|].
  find_zeros.
Qed.

Lemma pba_wire_body_eq pb :
  mh_layout_wf L → pba_fits L storage pb → nai_fits pb →
  pba_wire_body L storage pb =
    Some (options_image L pb ++
          replicate (align_to 8 (pba_sizeof L + options_size L pb)
                     - (pba_sizeof L + options_size L pb)) 0%Z).
Proof.
  intros Hwf Hfits Hnai. unfold pba_wire_body.
  run_pba Hwf Hfits. use_nai_fits Hnai.
  unfold options_size, nai_option_size, handoff_option_size,
    att_option_size, option_header_size.
  cbn [static_size option_nai]. norm_align.
  unfold options_image, nai_option_image, handoff_option_image,
    att_option_image.
  cbn [static_size option_nai option_handoff option_att type_value].
  match goal with
  | |- loads _ (?a - _) _ = Some (_ ++ replicate ?pad _) =>
      replace (a - pba_sizeof L)
        with (2 + (1 + (String.length (id pb)
              + (2 + (handoff_static_size L
                 + (2 + (att_static_size L + pad)))))))
        by lia
  end.
  rewrite <- !app_assoc.
  change ([?a; ?b; ?c] ++ ?rest) with ([a; b] ++ [c] ++ rest).
  apply loads_app; [find_piece|].
  apply loads_app; [find_piece|].
  apply loads_app; [find_piece|].
  apply loads_app; [find_piece|].
  apply loads_app; [find_payload|].
  apply loads_app; [find_piece|].
  apply loads_app; [find_payload|].
  find_zeros.
Qed.

Lemma length_options_image pb :
  mh_layout_wf L → length (options_image L pb) = options_size L pb.
Proof.
  intros (_ & _ & Hopt). destruct Hopt as (?&?&?&?).
  unfold options_image, nai_option_image, handoff_option_image,
    att_option_image, options_size, nai_option_size, handoff_option_size,
    att_option_size, option_header_size.
  rewrite !length_app, !length_insert, !length_replicate,
    length_bytes_of_string.
  cbn [length static_size option_nai]. lia.
Qed.

(** X5: for an identifier that the length byte of the NAI option holds
    with its subtype (at most 254 bytes), a PBU and a PBA hold the same
    bytes behind the header: the NAI option (type, length, subtype 1,
    the identifier), the handoff option and the access technology type
    option (type, length, a payload that is zero but for the low byte of
    the indicator, of the technology type), and then zero bytes up to
    the aligned length. *)
Theorem message_body_image pb :
  mh_layout_wf L → pbu_fits L storage pb → pba_fits L storage pb →
  nai_fits pb →
  pbu_wire_body L storage pb =
    Some (options_image L pb ++
          replicate (align_to 8 (pbu_sizeof L + options_size L pb)
                     - (pbu_sizeof L + options_size L pb)) 0%Z) ∧
  pba_wire_body L storage pb =
    Some (options_image L pb ++
          replicate (align_to 8 (pba_sizeof L + options_size L pb)
                     - (pba_sizeof L + options_size L pb)) 0%Z) ∧
  length (options_image L pb) = options_size L pb.
Proof.
  intros Hwf Hpbu Hpba Hnai.
  rewrite pbu_wire_body_eq, pba_wire_body_eq by done.
  split; [done|]. split; [done|]. by apply length_options_image.
Qed.

Lemma bytes_of_string_inj s1 s2 :
  bytes_of_string s1 = bytes_of_string s2 → s1 = s2.
Proof.
  revert s2. induction s1 as [|c1 s1 IH]; intros [|c2 s2]; simpl; try done.
  intros [= Hc Hs]. f_equal; [|by apply IH].
  apply N2Z.inj in Hc.
  rewrite <- (Ascii.ascii_N_embedding c1), <- (Ascii.ascii_N_embedding c2).
  by rewrite Hc.
Qed.

(** X6: the constructors lose nothing but what the fields of the message
    cannot hold: two binding informations with the same PBU (the same
    PBA) have the same address, identifier, handoff indicator and link
    type (and status), the same sequence number modulo 2^16 and the same
    count of four second units modulo 2^16. *)
Theorem message_determines_binding pb1 pb2 :
  mh_layout_wf L →
  (pbu_encodable L storage pb1 → pbu_encodable L storage pb2 →
   pbu_sender L storage pb1 = pbu_sender L storage pb2 →
   address pb1 = address pb2 ∧ id pb1 = id pb2 ∧
   handoff pb1 = handoff pb2 ∧ link_type pb1 = link_type pb2 ∧
   uint16 (sequence pb1) = uint16 (sequence pb2) ∧
   uint16 (lifetime pb1 ÷ 4000) = uint16 (lifetime pb2 ÷ 4000)) ∧
  (pba_encodable L storage pb1 → pba_encodable L storage pb2 →
   pba_sender L storage pb1 = pba_sender L storage pb2 →
   address pb1 = address pb2 ∧ id pb1 = id pb2 ∧
   handoff pb1 = handoff pb2 ∧ link_type pb1 = link_type pb2 ∧
   status pb1 = status pb2 ∧
   uint16 (sequence pb1) = uint16 (sequence pb2) ∧
   uint16 (lifetime pb1 ÷ 4000) = uint16 (lifetime pb2 ÷ 4000)).
Proof.
  intros Hwf. split.
  - intros (Hf1 & Hn1 & Hh1 & Hl1) (Hf2 & Hn2 & Hh2 & Hl2) Heq.
    assert (pbu_wire_endpoint L storage pb1 = pbu_wire_endpoint L storage pb2)
      as He by (unfold pbu_wire_endpoint; by rewrite Heq).
    assert (pbu_wire_payloads L storage pb1 = pbu_wire_payloads L storage pb2)
      as Hp by (unfold pbu_wire_payloads; by rewrite Heq).
    assert (pbu_wire_sequence L storage pb1 = pbu_wire_sequence L storage pb2)
      as Hs by (unfold pbu_wire_sequence; by rewrite Heq).
    assert (pbu_wire_lifetime L storage pb1 = pbu_wire_lifetime L storage pb2)
      as Ht by (unfold pbu_wire_lifetime; by rewrite Heq).
    rewrite !pbu_wire_endpoint_eq in He by done.
    rewrite !pbu_wire_payloads_eq in Hp by done.
    rewrite !pbu_wire_sequence_eq in Hs by done.
    rewrite !pbu_wire_lifetime_eq in Ht by done.
    rewrite !uint8_small in Hp by done.
    injection He as He. injection Hp as Hid Hh Hl.
    injection Hs as Hs. injection Ht as Ht.
    apply bytes_of_string_inj in Hid. done.
  - intros (Hf1 & Hn1 & Hh1 & Hl1 & Hs1) (Hf2 & Hn2 & Hh2 & Hl2 & Hs2) Heq.
    assert (pba_wire_endpoint L storage pb1 = pba_wire_endpoint L storage pb2)
      as He by (unfold pba_wire_endpoint; by rewrite Heq).
    assert (pba_wire_payloads L storage pb1 = pba_wire_payloads L storage pb2)
      as Hp by (unfold pba_wire_payloads; by rewrite Heq).
    assert (pba_wire_sequence L storage pb1 = pba_wire_sequence L storage pb2)
      as Hs by (unfold pba_wire_sequence; by rewrite Heq).
    assert (pba_wire_lifetime L storage pb1 = pba_wire_lifetime L storage pb2)
      as Ht by (unfold pba_wire_lifetime; by rewrite Heq).
    assert (pba_wire_status L storage pb1 = pba_wire_status L storage pb2)
      as Hst by (unfold pba_wire_status; by rewrite Heq).
    rewrite !pba_wire_endpoint_eq in He by done.
    rewrite !pba_wire_payloads_eq in Hp by done.
    rewrite !pba_wire_sequence_eq in Hs by done.
    rewrite !pba_wire_lifetime_eq in Ht by done.
    rewrite !pba_wire_status_eq in Hst by done.
    rewrite !uint8_small in Hp by done.
    rewrite !uint8_small in Hst by done.
    injection He as He. injection Hp as Hid Hh Hl.
    injection Hs as Hs. injection Ht as Ht. injection Hst as Hst.
    apply bytes_of_string_inj in Hid. done.
Qed.
End mp_sender_more.

Lemma take_agree n buf buf' : agree_below n buf buf' → take n buf' = take n buf.
Proof.
  intros [Hlen Hbytes]. apply list_eq; intros i.
  rewrite !lookup_take. case_decide; [|done]. by apply Hbytes.
Qed.

Section icmp_sender_more.
Context (I : icmp_layout) (storage : list Z).

(** The loop over a list in two parts. *)
Lemma icmp_ra_prefixes_app l1 l2 : ∀ len buf,
  icmp_ra_prefixes I (l1 ++ l2) len buf =
  '(len', buf') ← icmp_ra_prefixes I l1 len buf;
  icmp_ra_prefixes I l2 len' buf'.
Proof.
  induction l1 as [|i l1 IH]; intros len buf; [done|].
  cbn [app icmp_ra_prefixes].
  destruct (new_opt_prefix_info I len buf) as [b1|]; [|done]. simpl.
  destruct (pi_L I len true b1) as [b2|]; [|done]. simpl.
  destruct (pi_A I len true b2) as [b3|]; [|done]. simpl.
  destruct (pi_valid_lifetime I len 7200 b3) as [b4|]; [|done]. simpl.
  destruct (pi_prefered_lifetime I len 1800 b4) as [b5|]; [|done]. simpl.
  destruct (pi_prefix I len i b5) as [b6|]; [|done]. simpl.
  destruct (icmp_option_size len b6) as [sz|]; [|done]. simpl.
  apply IH.
Qed.

(** The statements before the loop, when the header and the first two
    options fit the buffer. *)
Lemma icmp_ra_sender_unfold mac mtu destination :
  icmp_layout_wf I →
  ra_sizeof I + 8 * sll_units I + 8 * mtu_units I ≤ length storage →
  ∃ hdr,
    (∀ preflist,
       icmp_ra_sender I storage mac mtu preflist destination =
         ('(len, buf) ← icmp_ra_prefixes I preflist
             (ra_sizeof I + 8 * sll_units I + 8 * mtu_units I) hdr;
          Some {| icmp_endpoint := (destination, 0%Z);
                  icmp_buffer := buf; icmp_length := len |})) ∧
    length hdr = length storage ∧
    ∀ j, ra_sizeof I + 8 * sll_units I + 8 * mtu_units I ≤ j →
         j < length storage → hdr !! j = Some 0%Z.
Proof.
  intros Hwf Hfits. use_icmp_wf Hwf.
  eexists. split.
  { intros preflist. unfold icmp_ra_sender. unfold_icmp. cbn [Nat.add].
    do 4 exec_store. exec_icmp_size. do 2 exec_store. exec_icmp_size.
    reflexivity. }
  split; [solve_len|].
  intros j Hj Hj'. repeat lookup_step. unfold zero_fill.
  by apply lookup_replicate_2.
Qed.

(** The statements before the loop, when they do not fit. *)
Lemma icmp_ra_sender_header_overflow mac mtu preflist destination :
  icmp_layout_wf I →
  length storage < ra_sizeof I + 8 * sll_units I + 8 * mtu_units I →
  icmp_ra_sender I storage mac mtu preflist destination = None.
Proof.
  intros Hwf Hlen. use_icmp_wf Hwf.
  unfold icmp_ra_sender. unfold_icmp. cbn [Nat.add].
  destruct (decide (length storage < ra_sizeof I)).
  { by rewrite store_None by solve_len. }
  do 2 exec_store.
  destruct (decide (length storage < ra_sizeof I + 8 * sll_units I)).
  { by rewrite store_None by solve_len. }
  do 2 exec_store. exec_icmp_size.
  by rewrite store_None by solve_len.
Qed.

Lemma icmp_ra_prefixes_overflow preflist :
  icmp_layout_wf I →
  ∀ len buf,
  length buf < len + length preflist * (8 * pi_units I) →
  len ≤ length buf →
  icmp_ra_prefixes I preflist len buf = None.
Proof.
  intros Hwf. induction preflist as [|pref rest IH]; intros len buf Hlen Hle.
  { cbn [length] in Hlen. lia. }
  cbn [length] in Hlen. cbn [icmp_ra_prefixes].
  destruct (decide (len + 8 * pi_units I ≤ length buf)) as [Hfit|Hover].
  - destruct (prefix_info_written I pref len buf Hwf Hfit) as
      (buf1 & Hrun & [Hlen1 _] & Hsize1 & _).
    rewrite Hrun, Hsize1. cbn [mbind option_bind].
    apply IH; rewrite Hlen1; lia.
  - use_icmp_wf Hwf. unfold_icmp.
    by rewrite store_None by solve_len.
Qed.

(** What one turn of the loop leaves alone behind its option. *)
Lemma prefix_info_frame pref len buf :
  icmp_layout_wf I → len + 8 * pi_units I ≤ length buf →
  ∃ buf',
    (∀ A (k : list Z → option A),
       (buf ← new_opt_prefix_info I len buf;
        buf ← pi_L I len true buf;
        buf ← pi_A I len true buf;
        buf ← pi_valid_lifetime I len 7200 buf;
        buf ← pi_prefered_lifetime I len 1800 buf;
        buf ← pi_prefix I len pref buf;
        k buf) = k buf') ∧
    ∀ j, len + 8 * pi_units I ≤ j → buf' !! j = buf !! j.
Proof.
  intros Hwf Hlen. use_icmp_wf Hwf.
  eexists. split.
  { intros A k. unfold_icmp. exec_store. do 2 exec_flag. do 4 exec_store.
    reflexivity. }
  intros j Hj. by repeat lookup_step.
Qed.

Lemma icmp_ra_prefixes_frame preflist :
  icmp_layout_wf I →
  ∀ len buf len' buf',
  len + length preflist * (8 * pi_units I) ≤ length buf →
  icmp_ra_prefixes I preflist len buf = Some (len', buf') →
  ∀ j, len' ≤ j → buf' !! j = buf !! j.
Proof.
  intros Hwf. induction preflist as [|pref rest IH];
    intros len buf len' buf' Hlen Hrun j Hj.
  { cbn [icmp_ra_prefixes] in Hrun. by injection Hrun as <- <-. }
  cbn [length] in Hlen. cbn [icmp_ra_prefixes] in Hrun.
  destruct (prefix_info_written I pref len buf Hwf) as
    (buf1 & Hrun1 & [Hlen1 _] & Hsize1 & _); [lia|].
  destruct (prefix_info_frame pref len buf Hwf) as (buf2 & Hrun2 & Hframe);
    [lia|].
  assert (buf2 = buf1) as ->.
  { specialize (Hrun1 _ Some). rewrite Hrun2 in Hrun1. congruence. }
  rewrite Hrun1, Hsize1 in Hrun. cbn [mbind option_bind] in Hrun.
  assert (len + 8 * pi_units I + length rest * (8 * pi_units I) ≤ length buf1)
    as Hroom by (rewrite Hlen1; lia).
  destruct (icmp_ra_prefixes_run I rest Hwf _ _ Hroom) as (b & Hb & _).
  assert (len + 8 * pi_units I ≤ len') by (rewrite Hb in Hrun; injection Hrun; lia).
  rewrite (IH _ _ _ _ Hroom Hrun j Hj). apply Hframe. lia.
Qed.

Lemma loads_zeros p n buf :
  p + n ≤ length buf →
  (∀ j, p ≤ j → j < p + n → buf !! j = Some 0%Z) →
  loads p n buf = Some (replicate n 0%Z).
Proof.
  intros Hlen Hz. unfold loads. rewrite decide_True by done. f_equal.
  apply list_eq; intros i. rewrite lookup_take.
  destruct (decide (i < n)) as [Hi|Hi].
  - rewrite lookup_drop, Hz by lia. symmetry. by apply lookup_replicate_2.
  - symmetry. apply lookup_replicate_None. lia.
Qed.

(** X7: the constructor stays inside [_buffer] exactly when the header,
    the two fixed options and one prefix information option for each
    prefix fit it.  When it does, the length to send is that size, the
    endpoint is the destination with port 0 and [_buffer] keeps its
    size. *)
Theorem icmp_ra_sender_in_bounds mac mtu preflist destination :
  icmp_layout_wf I →
  (icmp_ra_sender I storage mac mtu preflist destination = None
     ↔ length storage < ra_size I preflist) ∧
  ∀ s, icmp_ra_sender I storage mac mtu preflist destination = Some s →
    icmp_length s = ra_size I preflist ∧
    icmp_endpoint s = (destination, 0%Z) ∧
    length (icmp_buffer s) = length storage.
Proof.
  intros Hwf.
  destruct (decide (ra_size I preflist ≤ length storage)) as [Hfits|Hover].
  - assert (ra_sizeof I + 8 * sll_units I + 8 * mtu_units I ≤ length storage)
      as Hhdr by (unfold ra_size in Hfits; lia).
    destruct (icmp_ra_sender_unfold mac mtu destination Hwf Hhdr)
      as (hdr & Hsender & Hlen & _).
    destruct (icmp_ra_prefixes_run I preflist Hwf
                (ra_sizeof I + 8 * sll_units I + 8 * mtu_units I) hdr)
      as (buf & Hloop & [Hlen' _] & _).
    { rewrite Hlen. exact Hfits. }
    rewrite Hsender, Hloop. cbn [mbind option_bind].
    split; [split; [done|lia]|].
    intros s [= <-]. cbn [icmp_length icmp_endpoint icmp_buffer].
    split; [done|]. split; [done|]. congruence.
  - assert (icmp_ra_sender I storage mac mtu preflist destination = None)
      as ->; [|split; [split; [lia|done]|done]].
    unfold ra_size in Hover.
    destruct (decide (ra_sizeof I + 8 * sll_units I + 8 * mtu_units I
                      ≤ length storage)) as [Hhdr|Hhdr].
    + destruct (icmp_ra_sender_unfold mac mtu destination Hwf Hhdr)
        as (hdr & Hsender & Hlen & _).
      rewrite Hsender.
      rewrite icmp_ra_prefixes_overflow; [done|done|rewrite Hlen; lia..].
    + apply icmp_ra_sender_header_overflow; [done|lia].
Qed.

(** X8: more prefixes only append.  The advertisement for a prefix list
    is the beginning of the advertisement for that list with further
    prefixes behind it: nothing of the header or of the options of the
    earlier prefixes depends on the prefixes that follow. *)
Theorem icmp_ra_sender_more_prefixes mac mtu preflist more destination :
  icmp_layout_wf I → ra_fits I storage (preflist ++ more) →
  take (ra_size I preflist)
    <$> ra_wire_message I storage mac mtu (preflist ++ more) destination
  = ra_wire_message I storage mac mtu preflist destination ∧
  length <$> ra_wire_message I storage mac mtu (preflist ++ more) destination
  = Some (ra_size I preflist + length more * (8 * pi_units I)).
Proof.
  intros Hwf Hfits. unfold ra_fits, ra_size in Hfits.
  rewrite length_app in Hfits.
  assert (ra_sizeof I + 8 * sll_units I + 8 * mtu_units I ≤ length storage)
    as Hhdr by lia.
  destruct (icmp_ra_sender_unfold mac mtu destination Hwf Hhdr)
    as (hdr & Hsender & Hlen & _).
  destruct (icmp_ra_prefixes_run I preflist Hwf
              (ra_sizeof I + 8 * sll_units I + 8 * mtu_units I) hdr)
    as (buf1 & Hloop1 & [Hlen1 _] & _); [rewrite Hlen; lia|].
  destruct (icmp_ra_prefixes_run I more Hwf
              (ra_sizeof I + 8 * sll_units I + 8 * mtu_units I
               + length preflist * (8 * pi_units I)) buf1)
    as (buf2 & Hloop2 & Hagree & _); [rewrite Hlen1, Hlen; lia|].
  unfold ra_wire_message. rewrite !Hsender, icmp_ra_prefixes_app, Hloop1.
  cbn [mbind option_bind]. rewrite Hloop2.
  cbn [mbind option_bind fmap option_fmap option_map icmp_message
       icmp_length icmp_buffer].
  unfold ra_size. split; f_equal.
  - unfold icmp_message. cbn [icmp_length icmp_buffer].
    rewrite take_take, Nat.min_l by lia. by apply take_agree.
  - unfold icmp_message. cbn [icmp_length icmp_buffer].
    rewrite length_take. destruct Hagree as [-> _]. lia.
Qed.

(** X9: the constructor writes nothing behind the message.  Every byte
    of [_buffer] from [_length] on is the zero that [std::fill] put
    there, whatever the array held before. *)
Theorem icmp_ra_sender_rest_zero mac mtu preflist destination :
  icmp_layout_wf I → ra_fits I storage preflist →
  ra_wire_rest I storage mac mtu preflist destination
  = Some (replicate (length storage - ra_size I preflist) 0%Z).
Proof.
  intros Hwf Hfits. unfold ra_fits in Hfits.
  assert (ra_sizeof I + 8 * sll_units I + 8 * mtu_units I ≤ length storage)
    as Hhdr by (unfold ra_size in Hfits; lia).
  destruct (icmp_ra_sender_unfold mac mtu destination Hwf Hhdr)
    as (hdr & Hsender & Hlen & Hzero).
  destruct (icmp_ra_prefixes_run I preflist Hwf
              (ra_sizeof I + 8 * sll_units I + 8 * mtu_units I) hdr)
    as (buf & Hloop & [Hlen' _] & _); [by rewrite Hlen|].
  unfold ra_wire_rest. rewrite Hsender, Hloop.
  cbn [mbind option_bind icmp_length icmp_buffer].
  fold (ra_size I preflist). rewrite Hlen', Hlen.
  apply loads_zeros; [rewrite Hlen', Hlen; lia|].
  intros j Hj Hj'.
  rewrite (icmp_ra_prefixes_frame preflist Hwf _ _ _ _
             ltac:(rewrite Hlen; exact Hfits) Hloop j Hj).
  apply Hzero; unfold ra_size in *; lia.
Qed.
End icmp_sender_more.

(** ** The tunnel parameters, further *)

Section tunnel_more.
Import ip6_tunnel_service.

Lemma strncpy_image src n : ∀ m, n ≤ m →
  vec_to_list (strncpy src n) = take n (c_chars src ++ replicate m 0%Z).
Proof.
  revert src. induction n as [|n IH]; intros src m Hm; [done|].
  destruct src as [|c src]; cbn [strncpy c_chars].
  - rewrite vec_to_list_replicate. cbn [app].
    by rewrite take_replicate, Nat.min_l by lia.
  - destruct (decide (c = 0%Z)) as [->|Hc].
    + rewrite vec_to_list_replicate. cbn [app].
      by rewrite take_replicate, Nat.min_l by lia.
    + cbn [vec_to_list app take]. f_equal. apply IH. lia.
Qed.

Lemma c_chars_nonzero src : Forall (λ c, c ≠ 0%Z) (c_chars src).
Proof.
  induction src as [|c src IH]; cbn [c_chars]; [constructor|].
  case_decide; by constructor.
Qed.

Lemma c_chars_app_zeros l m :
  Forall (λ c, c ≠ 0%Z) l → c_chars (l ++ replicate m 0%Z) = l.
Proof.
  induction 1 as [|c l Hc _ IH]; cbn [app c_chars].
  - by destruct m.
  - rewrite decide_False by done. by f_equal.
Qed.

(** X10: [name(str)] stores the first 16 characters of [str] and fills
    the rest of the array with zero bytes.  A name of fewer than 16
    characters is read back as it was given; a longer one is cut to its
    first 16 characters, which fill the array. *)
Theorem name_stored str p :
  vec_to_list (_name (name str p))
    = take if_name_size (c_chars str ++ replicate if_name_size 0%Z) ∧
  (length (c_chars str) < if_name_size →
   c_chars (_name (name str p)) = c_chars str ∧
   c_strlen (_name (name str p)) = Some (length (c_chars str))) ∧
  (if_name_size ≤ length (c_chars str) →
   vec_to_list (_name (name str p)) = take if_name_size (c_chars str) ∧
   c_strlen (_name (name str p)) = None).
Proof.
  assert (vec_to_list (_name (name str p))
    = take if_name_size (c_chars str ++ replicate if_name_size 0%Z)) as Himg.
  { unfold name; cbn [_name]. by apply strncpy_image. }
  split; [done|]. split.
  - intros Hlen. split; [|by apply name_short].
    rewrite Himg, take_app_ge by lia.
    rewrite take_replicate. apply c_chars_app_zeros, c_chars_nonzero.
  - intros Hlen. split; [|by apply name_long].
    by rewrite Himg, take_app_le by lia.
Qed.

(** X11: calls of two setters that assign different members can be
    exchanged; of two calls of the same setter the later one decides,
    and nothing of the earlier argument is left (also of a longer
    name). *)
Theorem setter_calls_exchange c1 c2 p :
  (assigns c1 ≠ assigns c2 → call c1 (call c2 p) = call c2 (call c1 p)) ∧
  (assigns c1 = assigns c2 → call c1 (call c2 p) = call c1 p).
Proof.
  split; intros H; destruct c1, c2; try done; by destruct H.
Qed.

Lemma flags_value_land f g :
  f ≠ g → Z.land (flags_value f) (flags_value g) = 0%Z.
Proof. by destruct f, g. Qed.

Lemma flags_enum_eq_or_ne (f g : flags_enum) : f = g ∨ f ≠ g.
Proof. destruct f, g; (by left) || (by right). Qed.

(** X12: the enumerators of [flags] are separate bits.  After
    [flags(f1 | f2 | ...)] the test [flags() & f] is not zero exactly
    for the enumerators [f] that were given, and the value fits the
    32 bit member. *)
Theorem flags_separate fs f p :
  (Z.land (_flags (flags (flags_or fs) p)) (flags_value f) ≠ 0%Z ↔ f ∈ fs) ∧
  uint32 (flags_or fs) = flags_or fs.
Proof.
  assert (uint32 (flags_or fs) = flags_or fs) as Hfit.
  { assert (0 ≤ flags_or fs < 32)%Z as Hrange.
    { induction fs as [|g fs IH]; cbn [flags_or foldr]; [lia|].
      fold (flags_or fs).
      assert (0 ≤ flags_value g < 2 ^ 5)%Z by (destruct g; simpl; lia).
      split; [apply Z.lor_nonneg; lia|].
      change 32%Z with (2 ^ 5)%Z.
      destruct (decide (flags_or fs = 0%Z)) as [->|?];
        [rewrite Z.lor_0_r; lia|].
      destruct (decide (flags_value g = 0%Z)) as [->|?];
        [rewrite Z.lor_0_l; lia|].
      apply Z.log2_lt_pow2; [|].
      { assert (0 ≤ Z.lor (flags_value g) (flags_or fs))%Z
          by (apply Z.lor_nonneg; lia).
        assert (Z.lor (flags_value g) (flags_or fs) ≠ 0)%Z
          by (intros [? ?]%Z.lor_eq_0_iff; done).
        lia. }
      rewrite Z.log2_lor by lia.
      apply Z.max_lub_lt; apply Z.log2_lt_pow2; lia. }
    unfold uint32. apply Z.mod_small. lia. }
  split; [|exact Hfit].
  cbn [flags _flags]. rewrite Hfit. clear Hfit.
  induction fs as [|g fs IH]; cbn [flags_or foldr].
  - rewrite Z.land_0_l. split; [done|]. by intros ?%elem_of_nil.
  - fold (flags_or fs). rewrite Z.land_lor_distr_l, elem_of_cons.
    split.
    + intros Hne. destruct (flags_enum_eq_or_ne g f) as [->|Hgf]; [by left|].
      right. apply IH. by rewrite flags_value_land, Z.lor_0_l in Hne.
    + intros [->|Hin] Hz; apply Z.lor_eq_0_iff in Hz as [Hz1 Hz2].
      * rewrite Z.land_diag in Hz1. by destruct g.
      * by apply IH in Hin.
Qed.

(** X13: [delete_on_close(impl, value)] exchanges the flag with its
    argument: calling it again with the value it returned puts [impl]
    back as it was and returns [value]. *)
Theorem delete_on_close_restores {list_hook : Type}
    (impl : implementation_type list_hook) (value : bool) :
  let '(prev, impl') := delete_on_close impl value in
  delete_on_close impl' prev = (value, impl) ∧
  delete_on_close_const impl' = value.
Proof. by destruct impl. Qed.

End tunnel_more.

(** ** Routing messages *)

Section route_properties.
Import route.

(** X14: the message types and the attribute types are numbered without
    gaps: the values from [m_begin] up to, not including, [m_end] are
    those of [m_new], [m_del] and [m_get], all different, and the values
    from [attr_begin] up to [attr_end] are those of the seven
    attributes, all different. *)
Theorem route_ranges (v : Z) :
  ((m_begin ≤ v < m_end)%Z ↔ v ∈ [m_new; m_del; m_get]) ∧
  NoDup [m_new; m_del; m_get] ∧
  ((attr_begin ≤ v < attr_end)%Z ↔
   v ∈ [attr_destination; attr_source; attr_input_device;
        attr_output_device; attr_gateway; attr_priority;
        attr_prefered_source]) ∧
  NoDup [attr_destination; attr_source; attr_input_device;
         attr_output_device; attr_gateway; attr_priority;
         attr_prefered_source].
Proof.
  unfold m_end, m_get, m_del, m_new, m_begin, attr_end,
    attr_prefered_source, attr_priority, attr_gateway, attr_output_device,
    attr_input_device, attr_source, attr_destination, attr_begin.
  split; [|split; [|split]].
  - rewrite !elem_of_cons, elem_of_nil. lia.
  - repeat (apply NoDup_cons; split;
            [rewrite ?elem_of_cons, elem_of_nil; lia|]).
    apply NoDup_nil_2.
  - rewrite !elem_of_cons, elem_of_nil. lia.
  - repeat (apply NoDup_cons; split;
            [rewrite ?elem_of_cons, elem_of_nil; lia|]).
    apply NoDup_nil_2.
Qed.

(** X15: every enumerator of [table], [proto], [scope] and [r_type] is
    kept unchanged by the [uchar] member of [route] that holds it, and
    different enumerators have different values, so that the member
    tells the enumerator; the flags are separate bits above the low
    byte.  A route made by [route()] has the first enumerator of each
    kind and no flag. *)
Theorem route_members_hold_enumerators :
  (∀ t, uint8 (table_value t) = table_value t) ∧
  (∀ p, uint8 (proto_value p) = proto_value p) ∧
  (∀ s, uint8 (scope_value s) = scope_value s) ∧
  (∀ r, uint8 (r_type_value r) = r_type_value r) ∧
  (∀ t t', table_value t = table_value t' → t = t') ∧
  (∀ p p', proto_value p = proto_value p' → p = p') ∧
  (∀ s s', scope_value s = scope_value s' → s = s') ∧
  (∀ r r', r_type_value r = r_type_value r' → r = r') ∧
  (∀ f f', Z.land (flags_value f) (flags_value f') ≠ 0%Z → f = f') ∧
  (∀ f, uint32 (flags_value f) = flags_value f ∧
        uint8 (flags_value f) = 0%Z) ∧
  table_id route = table_value table_unspecified ∧
  protocol route = proto_value proto_unspecified ∧
  scope_id route = scope_value scope_universe ∧
  type route = r_type_value r_unspecified ∧
  (∀ f, Z.land (flags_bits route) (flags_value f) = 0%Z).
Proof.
  repeat split.
  all: try (intros []; reflexivity).
  all: try (intros [] []; simpl; intros H; congruence).
  - intros [] []; vm_compute; intros H; congruence.
  - by destruct f.
  - by destruct f.
Qed.
End route_properties.

(** ** The further properties at the RFC layouts *)

Lemma wire_sequence_witness :
  mh_layout_wf rfc_mh_layout ∧
  pbu_fits rfc_mh_layout storage_1460 pbinfo_mn1 ∧
  pba_fits rfc_mh_layout storage_1460 pbinfo_mn1 ∧
  (0 ≤ proxy_binding_info.sequence pbinfo_mn1 < 65536)%Z ∧
  pbu_wire_sequence rfc_mh_layout storage_1460 pbinfo_mn1 = Some 1%Z ∧
  pba_wire_sequence rfc_mh_layout storage_1460 pbinfo_mn1 = Some 1%Z.
Proof.
  assert (mh_layout_wf rfc_mh_layout) as Hwf by layout_facts.
  assert (pbu_fits rfc_mh_layout storage_1460 pbinfo_mn1) as Hpbu
    by room_facts.
  assert (pba_fits rfc_mh_layout storage_1460 pbinfo_mn1) as Hpba
    by room_facts.
  assert (0 ≤ proxy_binding_info.sequence pbinfo_mn1 < 65536)%Z as Hseq
    by (simpl; lia).
  split; [exact Hwf|]. split; [exact Hpbu|]. split; [exact Hpba|].
  split; [exact Hseq|].
  exact (proj2 (proj2 (wire_sequence rfc_mh_layout storage_1460 pbinfo_mn1
                         Hwf Hpbu Hpba)) Hseq).
Defined.

Lemma wire_status_witness :
  mh_layout_wf rfc_mh_layout ∧
  pba_fits rfc_mh_layout storage_1460 pbinfo_mn1_later ∧
  one_byte (proxy_binding_info.status pbinfo_mn1_later) ∧
  pba_wire_status rfc_mh_layout storage_1460 pbinfo_mn1_later
    = Some 129%Z ∧
  pba_wire_proxy_reg rfc_mh_layout storage_1460 pbinfo_mn1_later
    = Some true.
Proof.
  assert (mh_layout_wf rfc_mh_layout) as Hwf by layout_facts.
  assert (pba_fits rfc_mh_layout storage_1460 pbinfo_mn1_later) as Hpba
    by room_facts.
  assert (one_byte (proxy_binding_info.status pbinfo_mn1_later)) as Hst
    by room_facts.
  split; [exact Hwf|]. split; [exact Hpba|]. split; [exact Hst|].
  exact (wire_status rfc_mh_layout storage_1460 pbinfo_mn1_later
           Hwf Hpba Hst).
Defined.

Lemma wire_lifetime_rounds_down_witness :
  mh_layout_wf rfc_mh_layout ∧
  pbu_fits rfc_mh_layout storage_1460 pbinfo_mn1_later ∧
  pba_fits rfc_mh_layout storage_1460 pbinfo_mn1_later ∧
  (0 ≤ proxy_binding_info.lifetime pbinfo_mn1_later < 262144000)%Z ∧
  pbu_wire_lifetime rfc_mh_layout storage_1460 pbinfo_mn1_later
    = Some 900%Z ∧
  (4000 * 900 ≤ proxy_binding_info.lifetime pbinfo_mn1_later
   < 4000 * 900 + 4000)%Z.
Proof.
  assert (mh_layout_wf rfc_mh_layout) as Hwf by layout_facts.
  assert (pbu_fits rfc_mh_layout storage_1460 pbinfo_mn1_later) as Hpbu
    by room_facts.
  assert (pba_fits rfc_mh_layout storage_1460 pbinfo_mn1_later) as Hpba
    by room_facts.
  assert (0 ≤ proxy_binding_info.lifetime pbinfo_mn1_later < 262144000)%Z
    as Hlt by (simpl; lia).
  assert (pbu_wire_lifetime rfc_mh_layout storage_1460 pbinfo_mn1_later
          = Some 900%Z) as Hw by (vm_compute; reflexivity).
  split; [exact Hwf|]. split; [exact Hpbu|]. split; [exact Hpba|].
  split; [exact Hlt|]. split; [exact Hw|].
  exact (proj1 (wire_lifetime_rounds_down rfc_mh_layout storage_1460
                  pbinfo_mn1_later Hwf Hpbu Hpba Hlt 900%Z (or_introl Hw))).
Defined.

Lemma identifier_overflows_buffer_witness :
  length storage_16
    < pbu_sizeof rfc_mh_layout + 3
      + String.length (proxy_binding_info.id pbinfo_mn1) ∧
  pbu_sender rfc_mh_layout storage_16 pbinfo_mn1 = None.
Proof.
  assert (length storage_16
          < pbu_sizeof rfc_mh_layout + 3
            + String.length (proxy_binding_info.id pbinfo_mn1)) as Hlen
    by (simpl; lia).
  split; [exact Hlen|].
  exact (proj1 (identifier_overflows_buffer rfc_mh_layout storage_16
                  pbinfo_mn1) Hlen).
Defined.

Lemma message_body_image_witness :
  mh_layout_wf rfc_mh_layout ∧
  pbu_fits rfc_mh_layout storage_1460 pbinfo_mn1 ∧
  pba_fits rfc_mh_layout storage_1460 pbinfo_mn1 ∧
  nai_fits pbinfo_mn1 ∧
  pbu_wire_body rfc_mh_layout storage_1460 pbinfo_mn1
    = Some [8; 4; 1; 109; 110; 49; 15; 2; 0; 1; 17; 2; 0; 4;
            0; 0; 0; 0; 0; 0]%Z.
Proof.
  assert (mh_layout_wf rfc_mh_layout) as Hwf by layout_facts.
  assert (pbu_fits rfc_mh_layout storage_1460 pbinfo_mn1) as Hpbu
    by room_facts.
  assert (pba_fits rfc_mh_layout storage_1460 pbinfo_mn1) as Hpba
    by room_facts.
  assert (nai_fits pbinfo_mn1) as Hnai by room_facts.
  split; [exact Hwf|]. split; [exact Hpbu|]. split; [exact Hpba|].
  split; [exact Hnai|].
  exact (proj1 (message_body_image rfc_mh_layout storage_1460 pbinfo_mn1
                  Hwf Hpbu Hpba Hnai)).
Defined.

Lemma message_determines_binding_witness :
  mh_layout_wf rfc_mh_layout ∧
  pbu_encodable rfc_mh_layout storage_1460 pbinfo_mn1 ∧
  pbu_encodable rfc_mh_layout storage_1460 pbinfo_mn1_later ∧
  pbu_sender rfc_mh_layout storage_1460 pbinfo_mn1
    = pbu_sender rfc_mh_layout storage_1460 pbinfo_mn1_later ∧
  proxy_binding_info.id pbinfo_mn1 = proxy_binding_info.id pbinfo_mn1_later ∧
  uint16 (proxy_binding_info.lifetime pbinfo_mn1 ÷ 4000)
    = uint16 (proxy_binding_info.lifetime pbinfo_mn1_later ÷ 4000).
Proof.
  assert (mh_layout_wf rfc_mh_layout) as Hwf by layout_facts.
  assert (pbu_encodable rfc_mh_layout storage_1460 pbinfo_mn1) as H1.
  { unfold pbu_encodable. repeat split; room_facts. }
  assert (pbu_encodable rfc_mh_layout storage_1460 pbinfo_mn1_later) as H2.
  { unfold pbu_encodable. repeat split; room_facts. }
  assert (pbu_sender rfc_mh_layout storage_1460 pbinfo_mn1
          = pbu_sender rfc_mh_layout storage_1460 pbinfo_mn1_later) as Heq
    by (vm_compute; reflexivity).
  split; [exact Hwf|]. split; [exact H1|]. split; [exact H2|].
  split; [exact Heq|].
  destruct (proj1 (message_determines_binding rfc_mh_layout storage_1460
                     pbinfo_mn1 pbinfo_mn1_later Hwf) H1 H2 Heq)
    as (_ & Hid & _ & _ & _ & Hlt).
  split; [exact Hid|exact Hlt].
Defined.

Lemma icmp_ra_sender_in_bounds_witness :
  icmp_layout_wf rfc_icmp_layout ∧
  length storage_1460 < ra_size rfc_icmp_layout (replicate 45 prefix_db8_1) ∧
  icmp_ra_sender rfc_icmp_layout storage_1460 mac_1 1500
    (replicate 45 prefix_db8_1) destination_1 = None.
Proof.
  assert (icmp_layout_wf rfc_icmp_layout) as Hwf by layout_facts.
  assert (length storage_1460
          < ra_size rfc_icmp_layout (replicate 45 prefix_db8_1)) as Hlen
    by (apply Nat.ltb_lt; vm_compute; reflexivity).
  split; [exact Hwf|]. split; [exact Hlen|].
  exact (proj2 (proj1 (icmp_ra_sender_in_bounds rfc_icmp_layout storage_1460
                         mac_1 1500 (replicate 45 prefix_db8_1)
                         destination_1 Hwf)) Hlen).
Defined.

Lemma icmp_ra_sender_more_prefixes_witness :
  icmp_layout_wf rfc_icmp_layout ∧
  ra_fits rfc_icmp_layout storage_1460 ([prefix_db8_1] ++ [prefix_db8_2]) ∧
  take 64 <$> ra_wire_message rfc_icmp_layout storage_1460 mac_1 1500
                ([prefix_db8_1] ++ [prefix_db8_2]) destination_1
  = ra_wire_message rfc_icmp_layout storage_1460 mac_1 1500
      [prefix_db8_1] destination_1.
Proof.
  assert (icmp_layout_wf rfc_icmp_layout) as Hwf by layout_facts.
  assert (ra_fits rfc_icmp_layout storage_1460
            ([prefix_db8_1] ++ [prefix_db8_2])) as Hfits by room_facts.
  split; [exact Hwf|]. split; [exact Hfits|].
  exact (proj1 (icmp_ra_sender_more_prefixes rfc_icmp_layout storage_1460
                  mac_1 1500 [prefix_db8_1] [prefix_db8_2] destination_1
                  Hwf Hfits)).
Defined.

Lemma icmp_ra_sender_rest_zero_witness :
  icmp_layout_wf rfc_icmp_layout ∧
  ra_fits rfc_icmp_layout storage_1460 [prefix_db8_1; prefix_db8_2] ∧
  ra_wire_rest rfc_icmp_layout storage_1460 mac_1 1500
    [prefix_db8_1; prefix_db8_2] destination_1
  = Some (replicate 1364 0%Z).
Proof.
  assert (icmp_layout_wf rfc_icmp_layout) as Hwf by layout_facts.
  assert (ra_fits rfc_icmp_layout storage_1460 [prefix_db8_1; prefix_db8_2])
    as Hfits by room_facts.
  split; [exact Hwf|]. split; [exact Hfits|].
  exact (icmp_ra_sender_rest_zero rfc_icmp_layout storage_1460 mac_1 1500
           [prefix_db8_1; prefix_db8_2] destination_1 Hwf Hfits).
Defined.

Lemma name_stored_witness :
  length (c_chars [109; 97; 103; 48]%Z) < ip6_tunnel_service.if_name_size ∧
  c_chars (ip6_tunnel_service._name
             (ip6_tunnel_service.name [109; 97; 103; 48]%Z
                ip6_tunnel_service.parameters_new))
    = [109; 97; 103; 48]%Z ∧
  c_strlen (ip6_tunnel_service._name
              (ip6_tunnel_service.name [109; 97; 103; 48]%Z
                 ip6_tunnel_service.parameters_new)) = Some 4.
Proof.
  assert (length (c_chars [109; 97; 103; 48]%Z)
          < ip6_tunnel_service.if_name_size) as Hlen
    by (vm_compute; lia).
  split; [exact Hlen|].
  exact (proj1 (proj2 (name_stored [109; 97; 103; 48]%Z
                         ip6_tunnel_service.parameters_new)) Hlen).
Defined.

Lemma setter_calls_exchange_witness :
  ip6_tunnel_service.assigns (ip6_tunnel_service.call_hop_limit 8)
    ≠ ip6_tunnel_service.assigns (ip6_tunnel_service.call_device 3) ∧
  ip6_tunnel_service.hop_limit 8
    (ip6_tunnel_service.device 3 ip6_tunnel_service.parameters_new)
  = ip6_tunnel_service.device 3
      (ip6_tunnel_service.hop_limit 8 ip6_tunnel_service.parameters_new).
Proof.
  assert (ip6_tunnel_service.assigns (ip6_tunnel_service.call_hop_limit 8)
    ≠ ip6_tunnel_service.assigns (ip6_tunnel_service.call_device 3)) as Hne
    by (simpl; discriminate).
  split; [exact Hne|].
  exact (proj1 (setter_calls_exchange (ip6_tunnel_service.call_hop_limit 8)
                  (ip6_tunnel_service.call_device 3)
                  ip6_tunnel_service.parameters_new) Hne).
Defined.

Lemma route_members_hold_enumerators_witness :
  route.table_value route.table_main = route.table_value route.table_main ∧
  Z.land (route.flags_value route.cloned) (route.flags_value route.cloned)
    ≠ 0%Z ∧
  route.cloned = route.cloned.
Proof.
  assert (Z.land (route.flags_value route.cloned)
            (route.flags_value route.cloned) ≠ 0%Z) as Hne
    by (vm_compute; discriminate).
  split; [reflexivity|]. split; [exact Hne|].
  destruct route_members_hold_enumerators
    as (_ & _ & _ & _ & _ & _ & _ & _ & Hflags & _).
  exact (Hflags route.cloned route.cloned Hne).
Defined.
